(** * Webhook notifier of pocket-id: a shallow embedding

    Verified source: [backend/internal/service/webhook_service.go].

    Go strings are byte sequences; they are modelled by [string], whose
    characters ([ascii]) are the 256 byte values.  The parts of Go's standard
    library that the service calls ([strings], [unicode/utf8], [unicode],
    [encoding/json], [fmt], [net/http], [log/slog]) are modelled first, each
    in a module of its name; the service itself is [Module service].  The
    definitions come first, the properties after them. *)

From Stdlib Require Import ZArith Ascii String List Lia Bool DecimalString.
From stdpp Require Import base option list strings gmap fin_maps.

Local Open Scope Z_scope.

(** ** Bytes and slices of strings *)

Definition byte_val (c : ascii) : Z := Z.of_N (N_of_ascii c).
Definition byte_of (z : Z) : ascii := ascii_of_N (Z.to_N (z mod 256)).

(** [bytes [195; 169]] is the Go string ["\xc3\xa9"]. *)
Definition bytes (l : list Z) : string := string_of_list_ascii (map byte_of l).

(** [len(s)] *)
Definition len (s : string) : Z := Z.of_nat (String.length s).

(** A property of every byte of [s]. *)
Definition all_bytes (P : ascii -> bool) (s : string) : bool :=
forallb P (list_ascii_of_string s).

(** [s[:n]] and [s[n:]] for [0 <= n <= len(s)] (Go panics otherwise; every
  use below is guarded). *)
Fixpoint slice_to (s : string) (n : nat) : string :=
match n, s with
| S n', String c s' => String c (slice_to s' n')
| _, _ => EmptyString
end.

Fixpoint slice_from (s : string) (n : nat) : string :=
match n, s with
| S n', String _ s' => slice_from s' n'
| _, _ => s
end.

(** ** unicode/utf8 *)
Module utf8.

Definition rune := Z.

Definition RuneError : rune := 65533.   (* U+FFFD *)
Definition RuneSelf : Z := 128.
Definition MaxRune : rune := 1114111.   (* U+10FFFF *)

(** The table [first] together with [acceptRanges]: for a leading byte of a
    multi-byte sequence, the length of the sequence and the range accepted
    for its second byte; [None] for the bytes marked [xx] (invalid) and
    for ASCII. *)
Definition first (b : Z) : option (nat * (Z * Z)) :=
  if (194 <=? b) && (b <=? 223) then Some (2%nat, (128, 191))
  else if b =? 224 then Some (3%nat, (160, 191))
  else if (225 <=? b) && (b <=? 236) then Some (3%nat, (128, 191))
  else if b =? 237 then Some (3%nat, (128, 159))
  else if (238 <=? b) && (b <=? 239) then Some (3%nat, (128, 191))
  else if b =? 240 then Some (4%nat, (144, 191))
  else if (241 <=? b) && (b <=? 243) then Some (4%nat, (128, 191))
  else if b =? 244 then Some (4%nat, (128, 143))
  else None.

Definition in_range (lo hi b : Z) : bool := (lo <=? b) && (b <=? hi).

(** [utf8.DecodeRuneInString]: the first rune of [s] and its width in
    bytes; [(RuneError, 0)] on the empty string and [(RuneError, 1)] on an
    invalid encoding. *)
Definition DecodeRuneInString (s : string) : rune * nat :=
  match s with
  | EmptyString => (RuneError, 0%nat)
  | String c0 t =>
    let s0 := byte_val c0 in
    if s0 <? RuneSelf then (s0, 1%nat)
    else
      match first s0 with
      | None => (RuneError, 1%nat)
      | Some (sz, (lo, hi)) =>
        match t with
        | EmptyString => (RuneError, 1%nat)
        | String c1 t1 =>
          let s1 := byte_val c1 in
          if negb (in_range lo hi s1) then (RuneError, 1%nat)
          else if (sz <=? 2)%nat
          then (Z.lor (Z.shiftl (Z.land s0 31) 6) (Z.land s1 63), 2%nat)
          else
            match t1 with
            | EmptyString => (RuneError, 1%nat)
            | String c2 t2 =>
              let s2 := byte_val c2 in
              if negb (in_range 128 191 s2) then (RuneError, 1%nat)
              else if (sz <=? 3)%nat
              then (Z.lor (Z.lor (Z.shiftl (Z.land s0 15) 12)
                                 (Z.shiftl (Z.land s1 63) 6))
                          (Z.land s2 63), 3%nat)
              else
                match t2 with
                | EmptyString => (RuneError, 1%nat)
                | String c3 _ =>
                  let s3 := byte_val c3 in
                  if negb (in_range 128 191 s3) then (RuneError, 1%nat)
                  else (Z.lor (Z.lor (Z.lor (Z.shiftl (Z.land s0 7) 18)
                                            (Z.shiftl (Z.land s1 63) 12))
                                     (Z.shiftl (Z.land s2 63) 6))
                              (Z.land s3 63), 4%nat)
                end
            end
        end
      end
  end.

(** [utf8.AppendRune] on an empty buffer: the UTF-8 encoding of [r];
    surrogates and values above [MaxRune] are encoded as [RuneError]. *)
Definition enc3 (r : rune) : string :=
  bytes [Z.lor 224 (Z.shiftr r 12);
         Z.lor 128 (Z.land (Z.shiftr r 6) 63);
         Z.lor 128 (Z.land r 63)].

Definition EncodeRune (r : rune) : string :=
  if (0 <=? r) && (r <=? 127) then bytes [r]
  else if (0 <=? r) && (r <=? 2047)
  then bytes [Z.lor 192 (Z.shiftr r 6); Z.lor 128 (Z.land r 63)]
  else if (r <? 0) || (MaxRune <? r) || ((55296 <=? r) && (r <=? 57343))
  then enc3 RuneError
  else if r <=? 65535 then enc3 r
  else bytes [Z.lor 240 (Z.shiftr r 18);
              Z.lor 128 (Z.land (Z.shiftr r 12) 63);
              Z.lor 128 (Z.land (Z.shiftr r 6) 63);
              Z.lor 128 (Z.land r 63)].

(** [for i, c := range s]: the runes of [s], each with the bytes it was
    decoded from; an invalid byte yields [RuneError] with that one byte.
    [skip] counts the bytes still belonging to the rune decoded last. *)
Fixpoint range_from (skip : nat) (s : string) : list (rune * string) :=
  match s with
  | EmptyString => []
  | String _ s' =>
    match skip with
    | S k => range_from k s'
    | O =>
      let '(r, size) := DecodeRuneInString s in
      (r, slice_to s size) :: range_from (Nat.pred size) s'
    end
  end.

Definition range (s : string) : list (rune * string) := range_from 0 s.

End utf8.

(** ** unicode *)
Module unicode.
Import utf8.

(** [unicode.IsSpace]: Latin-1 is special-cased, the rest is the
    [White_Space] table. *)
Definition IsSpace (r : rune) : bool :=
  if (0 <=? r) && (r <=? 255)
  then in_range 9 13 r || (r =? 32) || (r =? 133) || (r =? 160)
  else (r =? 5760) || in_range 8192 8202 r || in_range 8232 8233 r
       || (r =? 8239) || (r =? 8287) || (r =? 12288).

(** The case tables ([unicode.CaseRanges]) depend on the Unicode version of
    the Go release and are not part of the repository: [To_Upper] and
    [To_Lower] stand for [unicode.To(UpperCase, r)] and
    [unicode.To(LowerCase, r)] on runes above [MaxASCII]. *)
Class CaseTables := { To_Upper : rune -> rune; To_Lower : rune -> rune }.

Definition ToUpper `{CaseTables} (r : rune) : rune :=
  if r <=? 127
  then (if in_range 97 122 r then r - 32 else r)
  else To_Upper r.

Definition ToLower `{CaseTables} (r : rune) : rune :=
  if r <=? 127
  then (if in_range 65 90 r then r + 32 else r)
  else To_Lower r.

End unicode.


(** ** strings *)
Module strings.
Import utf8.

(** [strings.HasPrefix] *)
Fixpoint HasPrefix (s prefix : string) : bool :=
match prefix, s with
| EmptyString, _ => true
| String p prefix', String c s' => Ascii.eqb c p && HasPrefix s' prefix'
| String _ _, EmptyString => false
end.

(** [strings.Index]: the byte offset of the first instance of [substr] in
    [s], or [-1]. *)
Fixpoint Index_from (i : Z) (s substr : string) : Z :=
if HasPrefix s substr then i
else match s with
     | EmptyString => -1
     | String _ s' => Index_from (i + 1) s' substr
     end.

Definition Index (s substr : string) : Z := Index_from 0 s substr.

(** [strings.Contains] *)
Definition Contains (s substr : string) : bool := 0 <=? Index s substr.

(** [strings.Count] for a non-empty [substr]: the number of non-overlapping
    instances.  The loop of the library runs until [Index] fails; each round
    removes at least one byte, so [String.length s] rounds are enough. *)
Fixpoint Count_loop (fuel : nat) (n : nat) (s substr : string) : nat :=
match fuel with
| O => n
| S fuel' =>
  let i := Index s substr in
  if i <? 0 then n
  else Count_loop fuel' (S n)
         (slice_from s (Z.to_nat (i + len substr))) substr
end.

Definition Count (s substr : string) : nat :=
Count_loop (String.length s) 0 s substr.

(** [explode(s, -1)]: [s] cut into its UTF-8 sequences, invalid bytes sliced
    individually. *)
Definition explode (s : string) : list string := map snd (range s).

(** The loop of [genSplit(s, sep, 0, -1)]: [n] is the number of separators
    still to be cut at. *)
Fixpoint genSplit_loop (n : nat) (s sep : string) : list string :=
match n with
| O => [s]
| S n' =>
  let m := Index s sep in
  if m <? 0 then [s]
  else slice_to s (Z.to_nat m)
       :: genSplit_loop n' (slice_from s (Z.to_nat (m + len sep))) sep
end.

(** [strings.Split] *)
Definition Split (s sep : string) : list string :=
match sep with
| EmptyString => explode s
| _ => genSplit_loop (Count s sep) s sep
end.

(** [strings.Join] *)
Fixpoint Join (elems : list string) (sep : string) : string :=
match elems with
| [] => EmptyString
| [e] => e
| e :: rest => e +:+ sep +:+ Join rest sep
end.

(** [strings.Map]: every rune of [s] is replaced by its image; a negative
    image drops the rune, an invalid byte is read as [RuneError]. *)
Definition Map (mapping : rune -> rune) (s : string) : string :=
fold_right
  (fun (c : rune * string) out =>
     let r := mapping (fst c) in
     if r <? 0 then out else EncodeRune r +:+ out)
  EmptyString (range s).

Definition isASCII (s : string) : bool :=
all_bytes (fun c => byte_val c <? RuneSelf) s.

Definition map_bytes (f : Z -> Z) (s : string) : string :=
string_of_list_ascii
  (map (fun c => byte_of (f (byte_val c))) (list_ascii_of_string s)).

(** [strings.ToUpper] and [strings.ToLower]: a byte-wise loop when [s] is
    all ASCII, [Map] with the Unicode mapping otherwise. *)
Definition ToUpper `{unicode.CaseTables} (s : string) : string :=
if isASCII s
then map_bytes (fun c => if in_range 97 122 c then c - 32 else c) s
else Map unicode.ToUpper s.

Definition ToLower `{unicode.CaseTables} (s : string) : string :=
if isASCII s
then map_bytes (fun c => if in_range 65 90 c then c + 32 else c) s
else Map unicode.ToLower s.

(** [strings.TrimLeftFunc] and [strings.TrimRightFunc]: the leading
    (trailing) runes that satisfy [f] are removed.  The library walks
    backwards from the end with [DecodeLastRuneInString]; the runes it finds
    are those of the forward walk, UTF-8 being self-synchronising. *)
Definition concat_bytes (l : list (rune * string)) : string :=
fold_right (fun c out => snd c +:+ out) EmptyString l.

Fixpoint drop_while {A} (f : A -> bool) (l : list A) : list A :=
match l with
| [] => []
| x :: l' => if f x then drop_while f l' else l
end.

Definition TrimLeftFunc (s : string) (f : rune -> bool) : string :=
concat_bytes (drop_while (fun c => f (fst c)) (range s)).

Definition TrimRightFunc (s : string) (f : rune -> bool) : string :=
concat_bytes (rev (drop_while (fun c => f (fst c)) (rev (range s)))).

Definition TrimFunc (s : string) (f : rune -> bool) : string :=
TrimRightFunc (TrimLeftFunc s f) f.

(** [strings.TrimSpace]: leading and trailing white space, as defined by
    Unicode, removed.  (The library's fast path for ASCII computes the same
    slice.) *)
Definition TrimSpace (s : string) : string := TrimFunc s unicode.IsSpace.

End strings.

(** ** errors and fmt *)

(** A Go [error] value: a message, and the error it wraps when it was made
    by [fmt.Errorf] with [%w].  A nil [error] is [None : option error]. *)
Inductive error : Type :=
| errorString (msg : string)
| wrapError (msg : string) (err : error).

Definition Error (e : error) : string :=
match e with
| errorString msg => msg
| wrapError msg _ => msg
end.

Module fmt.

(** The verb [%d] on an [int]. *)
Definition itoa (n : Z) : string := NilZero.string_of_int (Z.to_int n).

(** [fmt.Errorf(msg)] *)
Definition Errorf (msg : string) : error := errorString msg.

(** [fmt.Errorf(prefix + "%w", err)] *)
Definition Errorf_w (prefix : string) (err : error) : error :=
wrapError (prefix +:+ Error err) err.

(** [fmt.Errorf(prefix + "%d", n)] *)
Definition Errorf_d (prefix : string) (n : Z) : error :=
errorString (prefix +:+ itoa n).

End fmt.

(** ** Slices

    A slice is nil or holds a sequence of elements; [encoding/json] tells the
    two apart ([null] against [[]]), [len] and [omitempty] do not. *)
Abbreviation slice A := (option (list A)) (only parsing).

Definition slice_len {A} (s : slice A) : nat :=
match s with
| None => 0%nat
| Some l => length l
end.

Definition slice_elems {A} (s : slice A) : list A :=
match s with
| None => []
| Some l => l
end.

(** [append(s, x)] *)
Definition append {A} (s : slice A) (x : A) : slice A :=
Some (slice_elems s ++ [x]).

(** ** encoding/json

    The body of a request is kept as the JSON value the text written by
    [json.Marshal] denotes: an object is the sequence of its members in the
    order they are written (the order of the struct's fields), a string is
    the text between the quotes with its escapes resolved. *)
#[warnings="-register-all"]
Inductive json : Type :=
| JNull
| JBool (b : bool)
| JNumber (n : Z)
| JString (s : string)
| JArray (elems : list json)
| JObject (members : list (string * json)).

(** The keys of a JSON object, in order. *)
Definition json_keys (j : json) : list string :=
match j with
| JObject members => map fst members
| _ => []
end.

Definition has_key (k : string) (j : json) : bool :=
existsb (String.eqb k) (json_keys j).

(** How [json.Marshal] writes a Go string: every byte that is not part of
    a valid UTF-8 sequence is written as U+FFFD, the valid sequences are
    written as they are (some of them escaped, which does not change the
    string denoted). *)
Definition coerce_utf8 (s : string) : string :=
fold_right
  (fun (c : utf8.rune * string) out =>
     (if (fst c =? utf8.RuneError) && (String.length (snd c) =? 1)%nat
      then utf8.EncodeRune utf8.RuneError
      else snd c) +:+ out)
  EmptyString (utf8.range s).

Definition marshal_string (s : string) : json := JString (coerce_utf8 s).

(** How [json.Marshal] writes a slice, and a struct field tagged
    [omitempty]. *)
Definition marshal_slice {A} (m : A -> json) (s : slice A) : json :=
match s with
| None => JNull
| Some l => JArray (map m l)
end.

Definition omitempty (key : string) (empty : bool) (v : json)
  : list (string * json) :=
if empty then [] else [(key, v)].


(** ** What the source takes from its platform

    Four things the service uses are fixed neither by the repository nor by
    the language: the Unicode case tables of the Go release, the clock type
    with its RFC 3339 layout, what [net/url] accepts as a URL, and the order
    in which [range] visits a map.  A [Platform] supplies them; every theorem
    below holds for every platform. *)
Class Platform : Type := {
  case_tables :: unicode.CaseTables;
  (** [context.Context] *)
  Context_ : Type;
  (** [time.Time], and [t.UTC().Format(time.RFC3339)] *)
  Time : Type;
  Format_UTC_RFC3339 : Time -> string;
  (** the error of [url.Parse], nil for a well-formed URL *)
  url_Parse_error : string -> option error;
  (** the entries of a map in the order a [range] loop visits them: each
      entry once, in an order the runtime chooses *)
  map_range : gmap string string -> list (string * string);
  map_range_perm : forall m, map_range m ≡ₚ map_to_list m
}.

(** ** net/http *)
Module http.
Section http.
Context `{Platform}.

Record Request : Type := {
  Ctx : Context_;
  Method : string;
  URL : string;
  Header : list (string * string);
  Body : json
}.

Record Response : Type := { StatusCode : Z }.

(** [http.NewRequestWithContext]: fails when the URL does not parse. *)
Definition NewRequestWithContext
    (ctx : Context_) (method url : string) (body : json)
  : Request + error :=
match url_Parse_error url with
| Some err => inr err
| None =>
  inl {| Ctx := ctx; Method := method; URL := url; Header := []; Body := body |}
end.

(** [req.Header.Set(key, value)] *)
Definition Header_Set (req : Request) (key value : string) : Request :=
{| Ctx := Ctx req; Method := Method req; URL := URL req;
   Header := (key, value)
             :: filter (fun kv => negb (String.eqb (fst kv) key)) (Header req);
   Body := Body req |}.

(** [*http.Client]: what the network answers to a request, a response or a
    transport error (which includes cancellation of the context). *)
Record Client : Type := { RoundTrip : Request -> Response + error }.

End http.
End http.

(** ** The world the service acts on

    The service has two effects: it performs HTTP exchanges and it writes log
    records; it reads the clock.  A computation is a function of the world
    that returns its result and the world it leaves. *)
Section World.
Context `{Platform}.

(** A record written by [slog.ErrorContext(ctx, msg, "error", err, "event", event)]. *)
Record LogRecord : Type := {
  log_msg : string;
  log_error : error;
  log_event : string
}.

Record World : Type := {
  clock : Time;
  http_calls : list (http.Request * (http.Response + error));
  slog_records : list LogRecord
}.

Definition M (A : Type) : Type := World -> A * World.

#[export] Instance M_ret : MRet M := fun A (a : A) w => (a, w).

#[export] Instance M_bind : MBind M :=
fun A B (k : A -> M B) (c : M A) w => let '(a, w') := c w in k a w'.

(** The world after one more exchange. *)
Definition with_call (w : World) (req : http.Request)
    (r : http.Response + error) : World :=
{| clock := clock w;
   http_calls := http_calls w ++ [(req, r)];
   slog_records := slog_records w |}.

(** [client.Do(req)] *)
Definition Do (client : http.Client) (req : http.Request)
  : M (http.Response + error) :=
fun w =>
  let r := http.RoundTrip client req in (r, with_call w req r).

(** [time.Now()] *)
Definition time_Now : M Time := fun w => (clock w, w).

(** [slog.ErrorContext] *)
Definition slog_ErrorContext (msg : string) (err : error) (event : string)
  : M unit :=
fun w =>
  (tt, {| clock := clock w;
          http_calls := http_calls w;
          slog_records :=
            slog_records w
            ++ [{| log_msg := msg; log_error := err; log_event := event |}] |}).

End World.


(** * package model

    [model.AuditLog] and the configuration model are declared outside the
    verified file; they are given the fields it reads. *)
Module model.
Section model.
Context `{Platform}.

Record AuditLog : Type := {
  Event : string;
  IpAddress : option string;          (* [*string], nil when absent *)
  UserAgent : string;
  Country : string;
  City : string;
  Username : string;
  CreatedAt : Time;
  Data : gmap string string           (* [map[string]string] *)
}.

Record AppConfigVariable : Type := { Value : string }.

Record AppConfig : Type := {
  WebhookUrl : AppConfigVariable;
  WebhookEvents : AppConfigVariable
}.

End model.
End model.

(** * package service *)
Module service.
Import model.
Section service.
Context `{Platform}.

(** [AppConfigService], of which the file calls [GetDbConfig] only. *)
Record AppConfigService : Type := { GetDbConfig : AppConfig }.

(** ** Types of the file *)
Record WebhookService : Type := {
  appConfigService : AppConfigService;
  httpClient : http.Client
}.

Record webhookEmbedField : Type := {
  Name : string;
  Value : string;
  Inline : bool
}.

Record webhookEmbed : Type := {
  Title : string;
  Color : Z;
  Fields : slice webhookEmbedField;
  Timestamp : string
}.

Record webhookPayload : Type := {
  Content : string;
  Embeds : slice webhookEmbed;        (* Discord *)
  Attachments : slice webhookEmbed    (* Slack *)
}.

(** [json.Marshal], following the struct tags. *)
Definition marshal_webhookEmbedField (f : webhookEmbedField) : json :=
JObject [("name", marshal_string (Name f));
         ("value", marshal_string (Value f));
         ("inline", JBool (Inline f))].

Definition marshal_webhookEmbed (e : webhookEmbed) : json :=
JObject [("title", marshal_string (Title e));
         ("color", JNumber (Color e));
         ("fields", marshal_slice marshal_webhookEmbedField (Fields e));
         ("timestamp", marshal_string (Timestamp e))].

Definition marshal_webhookPayload (p : webhookPayload) : json :=
JObject
  (omitempty "content" (String.eqb (Content p) "") (marshal_string (Content p))
   ++ omitempty "embeds" (slice_len (Embeds p) =? 0)%nat
        (marshal_slice marshal_webhookEmbed (Embeds p))
   ++ omitempty "attachments" (slice_len (Attachments p) =? 0)%nat
        (marshal_slice marshal_webhookEmbed (Attachments p))).

(** No value of these types makes [json.Marshal] fail. *)
Definition json_Marshal (p : webhookPayload) : json + error :=
inl (marshal_webhookPayload p).

(** ** The pure helpers *)

Definition valueOrDash (v : string) : string :=
if String.eqb v "" then "-" else v.

Definition formatLocation (country city : string) : string :=
if String.eqb country "" && String.eqb city "" then ""
else if String.eqb city "" then country
else if String.eqb country "" then city
else city +:+ ", " +:+ country.

(** The loop of [formatEventTitle]: [i] is the index of the next word, [ws]
    the words still to visit (a [range] loop reads the slice it was given),
    [words] the slice being updated in place. *)
Fixpoint formatEventTitle_loop
    (i : nat) (ws : list string) (words : list string) : list string :=
match ws with
| [] => words
| w :: ws' =>
  formatEventTitle_loop (S i) ws'
    (if 0 <? len w
     then <[i := strings.ToUpper (slice_to w 1)
                 +:+ strings.ToLower (slice_from w 1)]> words
     else words)
end.

Definition formatEventTitle (event : string) : string :=
let words := strings.Split event "_" in
strings.Join (formatEventTitle_loop 0 words words) " ".

(** The word one round of that loop leaves at index [i]. *)
Definition title_word (w : string) : string :=
if 0 <? len w
then strings.ToUpper (slice_to w 1) +:+ strings.ToLower (slice_from w 1)
else w.

(** The loop of [isEventAllowed]. *)
Fixpoint isEventAllowed_loop (entries : list string) (event : string) : bool :=
match entries with
| [] => false
| allowed :: rest =>
  if String.eqb (strings.TrimSpace allowed) event then true
  else isEventAllowed_loop rest event
end.

Definition isEventAllowed (s : WebhookService) (event : string) : bool :=
let cfg := GetDbConfig (appConfigService s) in
let eventsFilter := model.Value (WebhookEvents cfg) in
if String.eqb eventsFilter "" then true
else isEventAllowed_loop (strings.Split eventsFilter ",") event.

(** ** Sending *)

(** The first statement of [sendPayload]: the payload in the shape of the
    destination. *)
Definition finalPayload (webhookURL : string) (payload : webhookPayload)
  : webhookPayload :=
if strings.Contains webhookURL "hooks.slack.com"
then {| Content := Content payload;
        Embeds := None;
        Attachments := Embeds payload |}
else payload.

Definition sendPayload
    (s : WebhookService) (ctx : Context_) (webhookURL : string)
    (payload : webhookPayload) : M (option error) :=
match json_Marshal (finalPayload webhookURL payload) with
| inr err =>
  mret (Some (fmt.Errorf_w "failed to marshal webhook payload: " err))
| inl body =>
  match http.NewRequestWithContext ctx "POST" webhookURL body with
  | inr err =>
    mret (Some (fmt.Errorf_w "failed to create webhook request: " err))
  | inl req =>
    let req := http.Header_Set req "Content-Type" "application/json" in
    r ← Do (httpClient s) req;
    match r with
    | inr err =>
      mret (Some (fmt.Errorf_w "failed to send webhook request: " err))
    | inl resp =>
      if (http.StatusCode resp <? 200) || (http.StatusCode resp >=? 300)
      then mret (Some (fmt.Errorf_d "webhook returned non-success status: "
                                    (http.StatusCode resp)))
      else mret None
    end
  end
end.

(** The request [sendPayload] hands to the client when the URL parses. *)
Definition webhook_request
    (ctx : Context_) (webhookURL : string) (payload : webhookPayload)
  : http.Request :=
{| http.Ctx := ctx; http.Method := "POST"; http.URL := webhookURL;
   http.Header := [("Content-Type", "application/json")];
   http.Body := marshal_webhookPayload (finalPayload webhookURL payload) |}.

(** The payload of [SendTestWebhook], stamped with the time [now]. *)
Definition testPayload (now : Time) : webhookPayload :=
{| Content := "";
   Embeds := Some
     [{| Title := "Test Webhook";
         Color := 5814783;
         Fields := Some
           [{| Name := "Status"; Value := "Connection successful";
               Inline := false |};
            {| Name := "Source"; Value := "Pocket ID"; Inline := true |}];
         Timestamp := Format_UTC_RFC3339 now |}];
   Attachments := None |}.

Definition SendTestWebhook (s : WebhookService) (ctx : Context_)
  : M (option error) :=
let cfg := GetDbConfig (appConfigService s) in
let webhookURL := model.Value (WebhookUrl cfg) in
if String.eqb webhookURL ""
then mret (Some (fmt.Errorf "webhook URL is not configured"))
else
  now ← time_Now;
  sendPayload s ctx webhookURL (testPayload now).

(** [payload.Embeds[0].Fields = append(payload.Embeds[0].Fields, f)].  The
    update of index 0 is in range whenever it runs, see
    [eventPayload_loop_in_range]; on an empty [Embeds] Go would panic. *)
Definition append_field (payload : webhookPayload) (f : webhookEmbedField)
  : webhookPayload :=
{| Content := Content payload;
   Embeds :=
     alter (fun e => {| Title := Title e; Color := Color e;
                        Fields := append (Fields e) f;
                        Timestamp := Timestamp e |})
           0%nat <$> Embeds payload;
   Attachments := Attachments payload |}.

(** The payload [SendEvent] builds, before and after the loop over
    [auditLog.Data]. *)
Definition eventPayload_init (auditLog : AuditLog) : webhookPayload :=
let ipAddress :=
  match IpAddress auditLog with
  | Some ip => ip
  | None => ""
  end in
let location := formatLocation (Country auditLog) (City auditLog) in
{| Content := "";
   Embeds := Some
     [{| Title := formatEventTitle (Event auditLog);
         Color := 5814783;
         Fields := Some
           [{| Name := "User"; Value := valueOrDash (Username auditLog);
               Inline := true |};
            {| Name := "IP Address"; Value := valueOrDash ipAddress;
               Inline := true |};
            {| Name := "Location"; Value := valueOrDash location;
               Inline := true |};
            {| Name := "Device"; Value := valueOrDash (UserAgent auditLog);
               Inline := true |}];
         Timestamp := Format_UTC_RFC3339 (CreatedAt auditLog) |}];
   Attachments := None |}.

Fixpoint eventPayload_loop
    (entries : list (string * string)) (payload : webhookPayload)
  : webhookPayload :=
match entries with
| [] => payload
| (k, v) :: rest =>
  eventPayload_loop rest
    (append_field payload
       {| Name := k; Value := valueOrDash v; Inline := true |})
end.

Definition eventPayload (auditLog : AuditLog) : webhookPayload :=
eventPayload_loop (map_range (Data auditLog)) (eventPayload_init auditLog).

Definition SendEvent (s : WebhookService) (ctx : Context_)
    (auditLog : AuditLog) : M unit :=
let cfg := GetDbConfig (appConfigService s) in
let webhookURL := model.Value (WebhookUrl cfg) in
if String.eqb webhookURL "" then mret tt
else if negb (isEventAllowed s (Event auditLog)) then mret tt
else
  err ← sendPayload s ctx webhookURL (eventPayload auditLog);
  match err with
  | Some err =>
    slog_ErrorContext "Failed to send webhook" err (Event auditLog)
  | None => mret tt
  end.

End service.
End service.


(** * The specification's side

    Definitions that follow the words of the specification, to be compared
    with the code above. *)
Module spec.
Section spec.
Context `{unicode.CaseTables}.

(** "capitalizes each word's first letter and lowercases the remainder":
    the first letter of a word is its first character, that is the bytes of
    its first rune; an empty word has none. *)
Definition capitalize_word (w : string) : string :=
match utf8.range w with
| [] => w
| (_, letter) :: _ =>
  strings.ToUpper letter
  +:+ strings.ToLower (slice_from w (String.length letter))
end.

(** "splits the event-kind identifier on its word-separator, capitalizes
    each word [...], joins with spaces" *)
Definition titleFromEventKind (kind : string) : string :=
strings.Join (map capitalize_word (strings.Split kind "_")) " ".

(** A word whose first character is one byte long (or that is empty). *)
Definition starts_single_byte (w : string) : bool :=
(snd (utf8.DecodeRuneInString w) <=? 1)%nat.

End spec.

(** The same on ASCII text, byte by byte. *)
Definition ascii_upper (c : ascii) : ascii :=
if utf8.in_range 97 122 (byte_val c) then byte_of (byte_val c - 32) else c.

Definition ascii_lower (c : ascii) : ascii :=
if utf8.in_range 65 90 (byte_val c) then byte_of (byte_val c + 32) else c.

Fixpoint map_string (f : ascii -> ascii) (s : string) : string :=
match s with
| EmptyString => EmptyString
| String c s' => String (f c) (map_string f s')
end.

Definition capitalize_ascii (w : string) : string :=
match w with
| EmptyString => EmptyString
| String c rest => String (ascii_upper c) (map_string ascii_lower rest)
end.

(** "the comma-separated entries after trimming surrounding whitespace from
    each entry" *)
Definition filter_entries (filterConfig : string) : list string :=
map strings.TrimSpace (strings.Split filterConfig ",").

(** "the serialized payload contains an "attachments" key and no "embeds"
    key; any other URL yields "embeds" and no "attachments""; the "content"
    field is "always empty/omitted". *)
Definition destination_keys (url : string) (body : json) : Prop :=
has_key "attachments" body = strings.Contains url "hooks.slack.com"
/\ has_key "embeds" body = negb (strings.Contains url "hooks.slack.com")
/\ has_key "content" body = false.

(** "one field per entry in the event's extra-attributes mapping, name =
    key, value = placeholder-guarded value, inline = true" *)
Definition extra_field (entry : string * string) : service.webhookEmbedField :=
{| service.Name := fst entry;
   service.Value := if String.eqb (snd entry) "" then "-" else snd entry;
   service.Inline := true |}.

(** The host component of a URL [scheme://[userinfo@]host[:port][/path]
    [?query][#fragment]] (RFC 3986, section 3.2): the authority lies between
    ["://"] and the next ["/"], ["?"] or ["#"]; the host is what is left of
    it without the user information and the port. *)
Fixpoint take_until (stop : ascii -> bool) (s : string) : string :=
match s with
| EmptyString => EmptyString
| String c s' => if stop c then EmptyString else String c (take_until stop s')
end.

Fixpoint after_last (sep : ascii) (s : string) : string :=
match s with
| EmptyString => EmptyString
| String c s' =>
  if existsb (Ascii.eqb sep) (list_ascii_of_string s')
  then after_last sep s'
  else if Ascii.eqb c sep then s' else s
end.

Definition url_authority (url : string) : string :=
let i := strings.Index url "://" in
if i <? 0 then EmptyString
else take_until
       (fun c => Ascii.eqb c "/" || Ascii.eqb c "?" || Ascii.eqb c "#")%char
       (slice_from url (Z.to_nat (i + 3))).

Definition url_host (url : string) : string :=
take_until (fun c => Ascii.eqb c ":"%char)
           (after_last "@"%char (url_authority url)).

End spec.

(** * A platform to run the model on

    The case tables are those of Unicode for Latin-1 (runes above U+00FF are
    left alone), every URL without an ASCII control character parses, and
    [range] visits a map in the order of [map_to_list]. *)
Module reference.

Definition latin1_case : unicode.CaseTables :=
{| unicode.To_Upper := fun r =>
     if (utf8.in_range 224 254 r) && negb (r =? 247) then r - 32
     else if r =? 255 then 376
     else if r =? 181 then 924
     else r;
   unicode.To_Lower := fun r =>
     if (utf8.in_range 192 222 r) && negb (r =? 215) then r + 32 else r |}.

Definition parse_error (url : string) : option error :=
if forallb (fun c => (32 <=? byte_val c) && negb (byte_val c =? 127))
           (list_ascii_of_string url)
then None
else Some (errorString "net/url: invalid control character in URL").

Definition platform : Platform :=
{| case_tables := latin1_case;
   Context_ := unit;
   Time := Z;
   Format_UTC_RFC3339 := fun _ => "1970-01-01T00:00:00Z";
   url_Parse_error := parse_error;
   map_range := map_to_list;
   map_range_perm := fun m => Permutation_refl (map_to_list m) |}.

End reference.

(** Sample inputs on the reference platform. *)
Module samples.
Import model service.
#[local] Existing Instance reference.platform.

(** A service configured with a URL and a filter, whose destination answers
    every request with the status [status]. *)
Definition service_with (url events : string) (status : Z) : WebhookService :=
{| appConfigService :=
     {| GetDbConfig := {| WebhookUrl := {| model.Value := url |};
                          WebhookEvents := {| model.Value := events |} |} |};
   httpClient :=
     {| http.RoundTrip := fun _ => inl {| http.StatusCode := status |} |} |}.

Definition world0 : World :=
{| clock := 0; http_calls := []; slog_records := [] |}.

(** A sign-in without IP address and location, with two extra attributes,
    one of them empty. *)
Definition sign_in : AuditLog :=
{| Event := "SIGN_IN";
   IpAddress := None;
   UserAgent := "Mozilla/5.0";
   Country := "";
   City := "";
   Username := "alice";
   CreatedAt := 0;
   Data := <["clientName" := "Nextcloud"]> (<["note" := ""]> ∅) |}.

(** An event with an extra attribute named like a fixed field. *)
Definition sign_in_as_root : AuditLog :=
{| Event := "SIGN_IN";
   IpAddress := Some "203.0.113.7";
   UserAgent := "curl/8.5";
   Country := "FR";
   City := "Paris";
   Username := "alice";
   CreatedAt := 0;
   Data := {["User" := "root"]} |}.

(** The test payload stamped with the epoch. *)
Definition test_payload : webhookPayload := testPayload 0.

(** A payload without embeds, and a payload that carries a text. *)
Definition no_embeds : webhookPayload :=
{| Content := ""; Embeds := None; Attachments := None |}.

Definition with_content : webhookPayload :=
{| Content := "hello"; Embeds := Embeds test_payload; Attachments := None |}.

Definition slack_url : string := "https://hooks.slack.com/services/T000/B000/XXXX".
Definition discord_url : string := "https://discord.com/api/webhooks/1/abcdef".

(** A URL whose host is [example.com] and whose path names the Slack
    domain. *)
Definition relay_url : string := "https://example.com/proxy/hooks.slack.com/T000".

(** The word [e-acute] in UTF-8. *)
Definition e_acute : string := bytes [195; 169].

End samples.


(** * The settings form

    [frontend/.../forms/app-config-webhook-form.svelte].  The form keeps the
    selected event kinds as an array and stores them in the configuration as
    one string.  A JavaScript string is represented by its UTF-8 bytes; the
    comma being one ASCII byte that occurs in no multi-byte sequence,
    [split(',')] and [join(',')] cut and glue at the same places in either
    representation. *)
Module frontend.

Definition auditLogEventsList : list string :=
["SIGN_IN"; "TOKEN_SIGN_IN"; "ACCOUNT_CREATED"; "CLIENT_AUTHORIZATION";
 "NEW_CLIENT_AUTHORIZATION"; "DEVICE_CODE_AUTHORIZATION";
 "NEW_DEVICE_CODE_AUTHORIZATION"; "PASSKEY_ADDED"; "PASSKEY_REMOVED"].

(** [s.split(sep)] and [a.join(sep)] for a non-empty separator: the
    substrings between the occurrences of [sep], [[""]] for the empty
    string; the elements with [sep] between them. *)
Definition split (s sep : string) : list string := strings.Split s sep.
Definition join (a : list string) (sep : string) : string := strings.Join a sep.

(** [appConfig.webhookEvents ? appConfig.webhookEvents.split(',') : []]:
    [undefined] ([None]) and the empty string are falsy. *)
Definition initialSelectedEvents (webhookEvents : option string) : list string :=
match webhookEvents with
| None => []
| Some events => if String.eqb events "" then [] else split events ","
end.

(** [onSelectEvents(selected)]: the new [selectedEvents] and the new value of
    the input [webhookEvents]. *)
Definition onSelectEvents (selected : list string) : list string * string :=
(selected, join selected ",").

End frontend.

(** * Further views of the code, for the properties of the last part *)
Module views.

(** A string without the byte [sep]. *)
Definition sep_free (sep : ascii) (e : string) : bool :=
all_bytes (fun x => negb (Ascii.eqb x sep)) e.

(** The title of an ASCII event kind written in one pass over its bytes:
    an underscore becomes a space and starts a word, the first byte of a word
    is put in upper case, the others in lower case. *)
Fixpoint title_scan (word_start : bool) (s : string) : string :=
match s with
| EmptyString => EmptyString
| String c s' =>
  if Ascii.eqb c "_"
  then String " " (title_scan true s')
  else String (if word_start then spec.ascii_upper c else spec.ascii_lower c)
              (title_scan false s')
end.

(** The ASCII white space, and the bytes of a filter that names no event. *)
Definition ascii_space (c : ascii) : bool :=
utf8.in_range 9 13 (byte_val c) || (byte_val c =? 32).

Definition blank_or_comma (c : ascii) : bool :=
ascii_space c || Ascii.eqb c ",".

(** The values of the members of a JSON object, in order. *)
Definition json_values (j : json) : list json :=
match j with
| JObject members => map snd members
| _ => []
end.

(** The log record [SendEvent] writes for a failed delivery. *)
Definition failure_record (err : error) (event : string) : LogRecord :=
{| log_msg := "Failed to send webhook"; log_error := err; log_event := event |}.

End views.

(** More sample inputs on the reference platform. *)
Module more_samples.
Import model service.
#[local] Existing Instance reference.platform.

(** A URL with a line feed, which [net/url] refuses. *)
Definition bad_url : string := "https://example.com/hook" +:+ bytes [10].

(** A service whose destination cannot be reached. *)
Definition unreachable (url events : string) : WebhookService :=
{| appConfigService :=
     {| GetDbConfig := {| WebhookUrl := {| model.Value := url |};
                          WebhookEvents := {| model.Value := events |} |} |};
   httpClient :=
     {| http.RoundTrip := fun _ =>
          inr (errorString "dial tcp 203.0.113.9:443: connect: connection refused") |} |}.

(** A passkey event with an IP address, a location and no extra attribute. *)
Definition passkey_added : AuditLog :=
{| Event := "PASSKEY_ADDED";
   IpAddress := Some "198.51.100.4";
   UserAgent := "Firefox";
   Country := "DE";
   City := "Berlin";
   Username := "bob";
   CreatedAt := 0;
   Data := ∅ |}.

(** A sign-in whose user name holds the byte 0xFF, which is not UTF-8. *)
Definition garbled_user : AuditLog :=
{| Event := "SIGN_IN";
   IpAddress := None;
   UserAgent := "curl/8.5";
   Country := "";
   City := "Oslo";
   Username := bytes [97; 255; 98];
   CreatedAt := 0;
   Data := ∅ |}.

End more_samples.

(** [NewWebhookService] *)
Module constructor.
Section constructor.
Context `{Platform}.

Definition NewWebhookService
    (appConfigService : service.AppConfigService) (httpClient : http.Client)
  : service.WebhookService :=
{| service.appConfigService := appConfigService;
   service.httpClient := httpClient |}.

End constructor.
End constructor.

(** * Properties *)

(** A few runs of the library model. *)
Example Split_ex :
  strings.Split "TOKEN_SIGN_IN, SIGN_IN" "," = ["TOKEN_SIGN_IN"; " SIGN_IN"]
  /\ strings.Split "" "," = [""]
  /\ strings.Split "a__b_" "_" = ["a"; ""; "b"; ""]
  /\ strings.Split "aXXbXXXc" "XX" = ["a"; "b"; "Xc"].
Proof. repeat split; reflexivity. Qed.

Example TrimSpace_ex :
  strings.TrimSpace "  SIGN_IN  " = "SIGN_IN"
  /\ strings.TrimSpace "    " = ""
  /\ strings.TrimSpace " a b " = "a b"
  /\ strings.TrimSpace (bytes [194; 160; 65; 226; 128; 131; 10]) = "A"
  /\ strings.TrimSpace (bytes [32; 195; 32]) = bytes [195]
  /\ strings.TrimSpace (bytes [226; 128; 32]) = bytes [226; 128].
Proof. repeat split; vm_compute; reflexivity. Qed.

Example utf8_ex :
  utf8.DecodeRuneInString "A" = (65, 1%nat)
  /\ utf8.DecodeRuneInString (bytes [195; 169; 33]) = (233, 2%nat)
  /\ utf8.DecodeRuneInString (bytes [226; 130; 172]) = (8364, 3%nat)
  /\ utf8.DecodeRuneInString (bytes [240; 157; 132; 158]) = (119070, 4%nat)
  /\ utf8.DecodeRuneInString (bytes [192; 128]) = (utf8.RuneError, 1%nat)
  /\ utf8.DecodeRuneInString (bytes [237; 160; 128]) = (utf8.RuneError, 1%nat)
  /\ utf8.DecodeRuneInString (bytes [244; 144; 128; 128])
     = (utf8.RuneError, 1%nat)
  /\ utf8.DecodeRuneInString (bytes [226; 130]) = (utf8.RuneError, 1%nat)
  /\ utf8.DecodeRuneInString "" = (utf8.RuneError, 0%nat)
  /\ utf8.EncodeRune 233 = bytes [195; 169]
  /\ utf8.EncodeRune 8364 = bytes [226; 130; 172]
  /\ utf8.EncodeRune 119070 = bytes [240; 157; 132; 158]
  /\ utf8.EncodeRune 55296 = bytes [239; 191; 189]
  /\ utf8.range (bytes [97; 195; 169; 255; 226; 130; 172])
     = [(97, "a"); (233, bytes [195; 169]); (utf8.RuneError, bytes [255]);
        (8364, bytes [226; 130; 172])].
Proof. repeat split; vm_compute; reflexivity. Qed.

Example Contains_ex :
  strings.Contains "https://hooks.slack.com/services/T0/B0" "hooks.slack.com" = true
  /\ strings.Contains "https://discord.com/api/webhooks/1/x" "hooks.slack.com" = false
  /\ strings.Contains "abc" "" = true /\ strings.Index "chicken" "ken" = 4.
Proof. repeat split; vm_compute; reflexivity. Qed.


Example itoa_ex :
  fmt.itoa 500 = "500" /\ fmt.itoa 0 = "0" /\ fmt.itoa (-7) = "-7"
  /\ fmt.itoa 204 = "204".
Proof. repeat split; reflexivity. Qed.

(** ** Facts about the library model *)
Section string_facts.

Lemma append_cons (c : ascii) (a b : string) :
  String c a +:+ b = String c (a +:+ b).
Proof. reflexivity. Qed.

Lemma append_nil_l (b : string) : "" +:+ b = b.
Proof. reflexivity. Qed.

Lemma length_append (a b : string) :
  String.length (a +:+ b) = (String.length a + String.length b)%nat.
Proof.
  induction a as [|c a IH]; [reflexivity |].
  rewrite append_cons. simpl. by rewrite IH.
Qed.

Lemma append_nil_r (a : string) : a +:+ "" = a.
Proof.
  induction a as [|c a IH]; [reflexivity |]. by rewrite append_cons, IH.
Qed.

Lemma append_assoc (a b c : string) : (a +:+ b) +:+ c = a +:+ b +:+ c.
Proof.
  induction a as [|x a IH]; [reflexivity |]. by rewrite !append_cons, IH.
Qed.

Lemma slice_to_from (s : string) (n : nat) : slice_to s n +:+ slice_from s n = s.
Proof.
  revert s. induction n as [|n IH]; intros [|c s]; simpl; try reflexivity.
  by rewrite append_cons, IH.
Qed.

Lemma slice_from_nil (n : nat) : slice_from "" n = "".
Proof. by destruct n. Qed.

Lemma length_slice_from (s : string) (n : nat) :
  String.length (slice_from s n) = (String.length s - n)%nat.
Proof.
  revert s. induction n as [|n IH]; intros [|c s]; simpl; try reflexivity.
  apply IH.
Qed.

Lemma length_slice_to (s : string) (n : nat) :
  String.length (slice_to s n) = Nat.min n (String.length s).
Proof.
  revert s. induction n as [|n IH]; intros [|c s]; simpl; try reflexivity.
  by rewrite IH.
Qed.

Lemma slice_from_from (s : string) (n k : nat) :
  slice_from (slice_from s n) k = slice_from s (n + k).
Proof.
  revert s. induction n as [|n IH]; intros [|c s];
    rewrite ?slice_from_nil; try reflexivity.
  apply IH.
Qed.

Lemma slice_from_append (a b : string) :
  slice_from (a +:+ b) (String.length a) = b.
Proof.
  induction a as [|c a IH]; [by destruct b |]. rewrite append_cons. exact IH.
Qed.

Lemma slice_from_slice_to (s : string) (m j : nat) :
  (j <= m)%nat ->
  slice_from s j = slice_from (slice_to s m) j +:+ slice_from s m.
Proof.
  revert s j. induction m as [|m IH]; intros s j Hj.
  - assert (j = 0%nat) as -> by lia. by destruct s.
  - destruct s as [|c s]; [by rewrite !slice_from_nil |].
    destruct j as [|j]; simpl.
    + by rewrite append_cons, slice_to_from.
    + apply IH. lia.
Qed.

(** [HasPrefix] *)
Lemma HasPrefix_iff (s prefix : string) :
  strings.HasPrefix s prefix = true <-> exists t, s = prefix +:+ t.
Proof.
  revert s. induction prefix as [|p prefix IH]; intros s.
  - split; [intros _; by exists s | by destruct s].
  - destruct s as [|c s]; simpl.
    + split; [discriminate | intros [t Ht]; discriminate].
    + rewrite andb_true_iff, IH. split.
      * intros [Hc [t ->]]. apply Ascii.eqb_eq in Hc as ->. by exists t.
      * intros [t Ht]. rewrite append_cons in Ht. inversion Ht; subst.
        split; [apply Ascii.eqb_refl | by exists t].
Qed.

Lemma HasPrefix_refl (b : string) : strings.HasPrefix b b = true.
Proof. apply HasPrefix_iff. exists "". by rewrite append_nil_r. Qed.

Lemma HasPrefix_append (t u prefix : string) :
  strings.HasPrefix t prefix = true -> strings.HasPrefix (t +:+ u) prefix = true.
Proof.
  rewrite !HasPrefix_iff. intros [x ->]. exists (x +:+ u). apply append_assoc.
Qed.

Lemma HasPrefix_length (s prefix : string) :
  strings.HasPrefix s prefix = true ->
  (String.length prefix <= String.length s)%nat.
Proof.
  rewrite HasPrefix_iff. intros [t ->]. rewrite length_append. lia.
Qed.

(** [Index]: the offset found is that of an instance of [substr], and the
    first one. *)
Lemma Index_from_unfold (i : Z) (s substr : string) :
  strings.Index_from i s substr
  = if strings.HasPrefix s substr then i
    else match s with
         | EmptyString => -1
         | String _ s' => strings.Index_from (i + 1) s' substr
         end.
Proof. destruct s; reflexivity. Qed.

Lemma Index_from_spec (s substr : string) (i : Z) :
  (strings.Index_from i s substr = -1
   /\ forall j : nat, strings.HasPrefix (slice_from s j) substr = false)
  \/ exists k : nat,
       strings.Index_from i s substr = i + Z.of_nat k
       /\ (k <= String.length s)%nat
       /\ strings.HasPrefix (slice_from s k) substr = true
       /\ forall j : nat, (j < k)%nat ->
                          strings.HasPrefix (slice_from s j) substr = false.
Proof.
  revert i. induction s as [|c s IH]; intros i; rewrite Index_from_unfold.
  - destruct (strings.HasPrefix "" substr) eqn:Hp.
    + right. exists 0%nat. repeat split; [lia | reflexivity | exact Hp | lia].
    + left. split; [reflexivity |]. intros j. by rewrite slice_from_nil.
  - destruct (strings.HasPrefix (String c s) substr) eqn:Hp.
    + right. exists 0%nat.
      repeat split; [lia | simpl; lia | exact Hp | lia].
    + destruct (IH (i + 1)) as [[Hnone Hall] | (k & Hk & Hlen & Hat & Hmin)].
      * left. split; [exact Hnone |]. intros [|j]; [exact Hp | apply Hall].
      * right. exists (S k). repeat split.
        -- rewrite Hk. lia.
        -- simpl. lia.
        -- exact Hat.
        -- intros [|j] Hj; [exact Hp | apply Hmin; lia].
Qed.

(** [strings.Contains(s, substr)] holds exactly when [substr] occurs in
    [s]. *)
Lemma Contains_iff (s substr : string) :
  strings.Contains s substr = true <-> exists a b, s = a +:+ substr +:+ b.
Proof.
  unfold strings.Contains, strings.Index. rewrite Z.leb_le.
  destruct (Index_from_spec s substr 0)
    as [[Hnone Hall] | (k & Hk & Hlen & Hat & Hmin)].
  - rewrite Hnone. split; [lia |]. intros (a & b & ->).
    specialize (Hall (String.length a)).
    rewrite slice_from_append, (proj2 (HasPrefix_iff _ _)) in Hall;
      [discriminate | by exists b].
  - rewrite Hk. split; [| lia]. intros _.
    apply HasPrefix_iff in Hat as [t Ht].
    exists (slice_to s k), t. rewrite <- Ht. symmetry. apply slice_to_from.
Qed.

Lemma Contains_suffix (a b : string) : strings.Contains (a +:+ b) b = true.
Proof. apply Contains_iff. exists a, "". by rewrite append_nil_r. Qed.

End string_facts.

Section split_facts.

(** What one successful [Index] gives to the loops of [Count] and
    [genSplit]. *)
Lemma Index_found (s sep : string) :
  0 <= strings.Index s sep ->
  let m := Z.to_nat (strings.Index s sep) in
  let k := Z.to_nat (strings.Index s sep + len sep) in
  s = slice_to s m +:+ sep +:+ slice_from s k
  /\ (k = m + String.length sep)%nat
  /\ (k <= String.length s)%nat
  /\ forall j : nat, (j < m)%nat ->
                     strings.HasPrefix (slice_from s j) sep = false.
Proof.
  unfold strings.Index, len.
  destruct (Index_from_spec s sep 0)
    as [[Hnone _] | (k & Hk & Hlen & Hat & Hmin)]; [lia |].
  rewrite Hk. intros _. cbv zeta.
  replace (Z.to_nat (0 + Z.of_nat k)) with k by lia.
  replace (Z.to_nat (0 + Z.of_nat k + Z.of_nat (String.length sep)))
    with (k + String.length sep)%nat by lia.
  pose proof (HasPrefix_length _ _ Hat) as Hle.
  rewrite length_slice_from in Hle.
  apply HasPrefix_iff in Hat as [t Ht].
  repeat split; [| | exact Hmin].
  - rewrite <- slice_from_from, Ht, slice_from_append, <- Ht.
    symmetry. apply slice_to_from.
  - destruct sep; simpl in *; lia.
Qed.

Lemma Index_not_found (s sep : string) :
  strings.Index s sep < 0 -> strings.Contains s sep = false.
Proof. unfold strings.Contains. intros Hneg. apply Z.leb_gt. exact Hneg. Qed.

Lemma Join_cons (e : string) (rest : list string) (sep : string) :
  rest <> [] ->
  strings.Join (e :: rest) sep = e +:+ sep +:+ strings.Join rest sep.
Proof. destruct rest; [congruence | reflexivity]. Qed.

Lemma genSplit_loop_nonempty (n : nat) (s sep : string) :
  strings.genSplit_loop n s sep <> [].
Proof.
  destruct n; simpl; [discriminate |].
  destruct (strings.Index s sep <? 0); discriminate.
Qed.

(** Joining the pieces with the separator gives the string back. *)
Lemma Join_genSplit_loop (n : nat) (s sep : string) :
  strings.Join (strings.genSplit_loop n s sep) sep = s.
Proof.
  revert s. induction n as [|n IH]; intros s; simpl; [reflexivity |].
  destruct (Z.ltb_spec (strings.Index s sep) 0) as [Hneg|Hpos];
    [reflexivity |].
  rewrite Join_cons by apply genSplit_loop_nonempty.
  rewrite IH. symmetry. apply (Index_found s sep Hpos).
Qed.

Lemma Join_Split (s : string) (c : ascii) (sep : string) :
  strings.Join (strings.Split s (String c sep)) (String c sep) = s.
Proof. apply Join_genSplit_loop. Qed.

(** [Count] counts the rounds of the loop of [genSplit]: no piece contains
    the separator. *)
Lemma Count_loop_acc (fuel n : nat) (s sep : string) :
  strings.Count_loop fuel n s sep = (n + strings.Count_loop fuel 0 s sep)%nat.
Proof.
  revert n s. induction fuel as [|fuel IH]; intros n s; simpl; [lia |].
  destruct (strings.Index s sep <? 0); [lia |].
  rewrite (IH (S n)), (IH 1%nat). lia.
Qed.

Lemma slice_to_before_Index (s sep : string) (c : ascii) (t : string) :
  sep = String c t ->
  0 <= strings.Index s sep ->
  strings.Contains (slice_to s (Z.to_nat (strings.Index s sep))) sep = false.
Proof.
  intros Hsep Hpos.
  destruct (Index_found s sep Hpos) as (_ & _ & _ & Hmin).
  set (m := Z.to_nat (strings.Index s sep)) in *.
  unfold strings.Contains, strings.Index.
  destruct (Index_from_spec (slice_to s m) sep 0)
    as [[-> _] | (j & _ & Hj & Hat & _)]; [reflexivity |].
  exfalso.
  pose proof (HasPrefix_length _ _ Hat) as Hlen.
  rewrite length_slice_from, length_slice_to in Hlen.
  assert (j < m)%nat as Hjm by (subst sep; simpl in Hlen; lia).
  specialize (Hmin j Hjm).
  rewrite (slice_from_slice_to s m j) in Hmin by lia.
  rewrite (HasPrefix_append _ _ _ Hat) in Hmin. discriminate.
Qed.

Lemma genSplit_loop_sep_free (fuel : nat) (s sep : string) (c : ascii) (t : string) :
  sep = String c t ->
  (String.length s <= fuel)%nat ->
  Forall (fun e => strings.Contains e sep = false)
         (strings.genSplit_loop (strings.Count_loop fuel 0 s sep) s sep).
Proof.
  intros Hsep. revert s. induction fuel as [|fuel IH]; intros s Hlen.
  - simpl. constructor; [| constructor].
    destruct s; [| simpl in Hlen; lia]. subst sep. reflexivity.
  - simpl.
    destruct (Z.ltb_spec (strings.Index s sep) 0) as [Hneg|Hpos].
    + simpl. constructor; [| constructor]. by apply Index_not_found.
    + rewrite Count_loop_acc. simpl.
      destruct (Z.ltb_spec (strings.Index s sep) 0) as [Hneg|_]; [lia |].
      constructor.
      * by apply (slice_to_before_Index s sep c t).
      * apply IH.
        destruct (Index_found s sep Hpos) as (_ & Hk & Hle & _).
        rewrite length_slice_from. subst sep. simpl in Hk. lia.
Qed.

Lemma Split_sep_free (s : string) (c : ascii) (sep : string) :
  Forall (fun e => strings.Contains e (String c sep) = false)
         (strings.Split s (String c sep)).
Proof. by apply (genSplit_loop_sep_free _ _ _ c sep). Qed.

(** A property of all bytes of a string holds of all bytes of its
    pieces. *)
Lemma all_bytes_slice_to P (s : string) (n : nat) :
  all_bytes P s = true -> all_bytes P (slice_to s n) = true.
Proof.
  revert s. induction n as [|n IH]; intros [|c s]; simpl; try reflexivity.
  unfold all_bytes. simpl. rewrite !andb_true_iff. intros [Hc Hs].
  split; [exact Hc | by apply IH].
Qed.

Lemma all_bytes_slice_from P (s : string) (n : nat) :
  all_bytes P s = true -> all_bytes P (slice_from s n) = true.
Proof.
  revert s. induction n as [|n IH]; intros [|c s]; simpl; try done.
  unfold all_bytes at 1. simpl. rewrite andb_true_iff. intros [_ Hs].
  by apply IH.
Qed.

Lemma all_bytes_genSplit_loop P (n : nat) (s sep : string) :
  all_bytes P s = true ->
  Forall (fun e => all_bytes P e = true) (strings.genSplit_loop n s sep).
Proof.
  revert s. induction n as [|n IH]; intros s Hs; simpl.
  - by repeat constructor.
  - destruct (strings.Index s sep <? 0); [by repeat constructor |].
    constructor; [by apply all_bytes_slice_to |].
    by apply IH, all_bytes_slice_from.
Qed.

End split_facts.

Section rune_facts.
Import utf8.

Lemma DecodeRuneInString_width (c : ascii) (s : string) :
  (1 <= snd (DecodeRuneInString (String c s)) <= 4)%nat.
Proof.
  unfold DecodeRuneInString.
  repeat match goal with
         | |- context [if ?b then _ else _] => destruct b
         | |- context [match ?x with _ => _ end] => destruct x
         end; simpl; lia.
Qed.

Lemma DecodeRuneInString_width_le (s : string) :
  (snd (DecodeRuneInString s) <= String.length s)%nat.
Proof.
  unfold DecodeRuneInString.
  repeat match goal with
         | |- context [if ?b then _ else _] => destruct b
         | |- context [match ?x with _ => _ end] => destruct x
         end; simpl; lia.
Qed.

(** Skipping the bytes of the rune decoded last is slicing them off. *)
Lemma range_from_skip (k : nat) (s : string) :
  range_from k s = range (slice_from s k).
Proof.
  revert k. induction s as [|c s IH]; intros [|k]; try reflexivity.
  simpl. apply IH.
Qed.

Lemma range_cons (c : ascii) (s : string) :
  let d := DecodeRuneInString (String c s) in
  range (String c s)
  = (fst d, slice_to (String c s) (snd d))
    :: range (slice_from (String c s) (snd d)).
Proof.
  intros d. unfold range at 1. cbn [range_from]. fold d.
  pose proof (DecodeRuneInString_width c s) as Hw. fold d in Hw.
  destruct d as [r size]. simpl in Hw. simpl fst. simpl snd.
  rewrite range_from_skip. destruct size; [lia | reflexivity].
Qed.

(** The runes of a string, read in order, spell the string. *)
Lemma concat_bytes_range (s : string) : strings.concat_bytes (range s) = s.
Proof.
  remember (String.length s) as n eqn:Hn. revert s Hn.
  induction n as [n IH] using lt_wf_ind. intros [|c s] Hn; [reflexivity |].
  rewrite range_cons. cbn [strings.concat_bytes fold_right snd].
  pose proof (DecodeRuneInString_width c s) as Hw.
  fold (strings.concat_bytes
          (range (slice_from (String c s)
                    (snd (DecodeRuneInString (String c s)))))).
  rewrite (IH (String.length
                 (slice_from (String c s)
                    (snd (DecodeRuneInString (String c s)))))).
  - apply slice_to_from.
  - subst n. rewrite length_slice_from.
    set (d := snd (DecodeRuneInString (String c s))) in *.
    cbn [String.length]. lia.
  - reflexivity.
Qed.

Lemma concat_bytes_app (l1 l2 : list (rune * string)) :
  strings.concat_bytes (l1 ++ l2)
  = strings.concat_bytes l1 +:+ strings.concat_bytes l2.
Proof.
  induction l1 as [|x l1 IH]; [reflexivity |].
  simpl. unfold strings.concat_bytes in *. simpl.
  by rewrite IH, append_assoc.
Qed.

(** Decoding restarts at every rune: the runes of a string from one of its
    rune boundaries on are those of the rest of the string. *)
Lemma range_suffix (s : string) (l1 l2 : list (rune * string)) :
  range s = l1 ++ l2 -> range (strings.concat_bytes l2) = l2.
Proof.
  revert s. induction l1 as [|x l1 IH]; intros s Hs.
  - simpl in Hs. rewrite <- Hs, concat_bytes_range. reflexivity.
  - destruct s as [|c s]; [discriminate |].
    rewrite range_cons in Hs. inversion Hs as [[Hx Hrest]].
    exact (IH _ Hrest).
Qed.

Lemma drop_while_split {A} (f : A -> bool) (l : list A) :
  exists pre,
    l = pre ++ strings.drop_while f l
    /\ Forall (fun x => f x = true) pre
    /\ forall x, head (strings.drop_while f l) = Some x -> f x = false.
Proof.
  induction l as [|x l (pre & Hl & Hpre & Hhead)]; simpl.
  - exists []. repeat split; [constructor | discriminate].
  - destruct (f x) eqn:Hfx.
    + exists (x :: pre). repeat split.
      * simpl. by f_equal.
      * by constructor.
      * exact Hhead.
    + exists []. repeat split; [constructor |].
      simpl. intros y [= <-]. exact Hfx.
Qed.

Lemma last_rev {A} (l : list A) : last (rev l) = head l.
Proof. destruct l as [|x l]; [reflexivity |]. simpl. apply last_snoc. Qed.

(** [TrimFunc] removes the longest run of runes satisfying [f] at the start
    of the string and at its end. *)
Lemma TrimFunc_runes (s : string) (f : rune -> bool) :
  exists pre mid post,
    range s = pre ++ mid ++ post
    /\ Forall (fun c => f (fst c) = true) pre
    /\ Forall (fun c => f (fst c) = true) post
    /\ (forall c, head mid = Some c -> f (fst c) = false)
    /\ (forall c, last mid = Some c -> f (fst c) = false)
    /\ strings.TrimFunc s f = strings.concat_bytes mid
    /\ s = strings.concat_bytes pre +:+ strings.TrimFunc s f
           +:+ strings.concat_bytes post.
Proof.
  set (g := fun c : rune * string => f (fst c)).
  destruct (drop_while_split g (range s)) as (pre & Hs & Hpre & Hhead).
  set (l2 := strings.drop_while g (range s)) in *.
  destruct (drop_while_split g (rev l2)) as (tsop & Hr & Hpost & Hlast).
  set (dim := strings.drop_while g (rev l2)) in *.
  assert (Hl2 : l2 = rev dim ++ rev tsop).
  { rewrite <- rev_app_distr, <- Hr, rev_involutive. reflexivity. }
  assert (Htrim : strings.TrimFunc s f = strings.concat_bytes (rev dim)).
  { unfold strings.TrimFunc, strings.TrimLeftFunc, strings.TrimRightFunc.
    fold g. fold l2. rewrite (range_suffix s pre l2 Hs). reflexivity. }
  exists pre, (rev dim), (rev tsop). repeat split.
  - rewrite <- Hl2. exact Hs.
  - exact Hpre.
  - apply Forall_rev. exact Hpost.
  - intros c Hc. apply Hhead. rewrite Hl2.
    destruct (rev dim); [discriminate | exact Hc].
  - intros c Hc. apply Hlast. rewrite last_rev in Hc. exact Hc.
  - exact Htrim.
  - rewrite Htrim, <- !concat_bytes_app, <- Hl2, <- Hs.
    symmetry. apply concat_bytes_range.
Qed.

(** [TrimSpace]: the white space removed is the longest run of white-space
    runes at each end, and what is left neither begins nor ends with one. *)
Lemma TrimSpace_runes (s : string) :
  exists pre mid post,
    range s = pre ++ mid ++ post
    /\ Forall (fun c => unicode.IsSpace (fst c) = true) pre
    /\ Forall (fun c => unicode.IsSpace (fst c) = true) post
    /\ (forall c, head mid = Some c -> unicode.IsSpace (fst c) = false)
    /\ (forall c, last mid = Some c -> unicode.IsSpace (fst c) = false)
    /\ strings.TrimSpace s = strings.concat_bytes mid
    /\ s = strings.concat_bytes pre +:+ strings.TrimSpace s
           +:+ strings.concat_bytes post.
Proof. apply TrimFunc_runes. Qed.

End rune_facts.

(** ** The payload of an event *)
Section payload_facts.
Context `{Platform}.
Import model service.

Lemma valueOrDash_nonempty (v : string) : valueOrDash v <> "".
Proof.
  unfold valueOrDash. destruct (String.eqb_spec v ""); [discriminate | assumption].
Qed.

Lemma valueOrDash_empty : valueOrDash "" = "-".
Proof. reflexivity. Qed.

Lemma valueOrDash_id (v : string) : v <> "" -> valueOrDash v = v.
Proof.
  intros Hv. unfold valueOrDash.
  destruct (String.eqb_spec v ""); [contradiction | reflexivity].
Qed.

Lemma extra_field_valueOrDash (k v : string) :
  spec.extra_field (k, v)
  = {| Name := k; Value := valueOrDash v; Inline := true |}.
Proof. reflexivity. Qed.

(** The four fields every event payload starts with. *)
Lemma eventPayload_init_fields (auditLog : AuditLog) :
  exists e fixed,
    eventPayload_init auditLog
    = {| Content := ""; Embeds := Some [e]; Attachments := None |}
    /\ Fields e = Some fixed
    /\ map Name fixed = ["User"; "IP Address"; "Location"; "Device"]
    /\ Forall (fun f => Inline f = true) fixed
    /\ Forall (fun f => exists v, Value f = valueOrDash v) fixed
    /\ fixed !! 2%nat
       = Some {| Name := "Location";
                 Value := valueOrDash (formatLocation (Country auditLog)
                                                      (City auditLog));
                 Inline := true |}.
Proof.
  eexists _, _. split; [reflexivity |]. simpl.
  repeat split; try reflexivity; repeat constructor; eauto.
Qed.

(** One round of the loop over [auditLog.Data] appends one field to the
    single embed. *)
Lemma eventPayload_loop_fields entries c t col fs ts a :
  eventPayload_loop entries
    {| Content := c;
       Embeds := Some [{| Title := t; Color := col; Fields := Some fs;
                          Timestamp := ts |}];
       Attachments := a |}
  = {| Content := c;
       Embeds := Some [{| Title := t; Color := col;
                          Fields := Some (fs ++ map spec.extra_field entries);
                          Timestamp := ts |}];
       Attachments := a |}.
Proof.
  revert fs. induction entries as [|[k v] rest IH]; intros fs; simpl.
  - by rewrite app_nil_r.
  - unfold append_field, append. simpl. rewrite IH.
    rewrite <- app_assoc. reflexivity.
Qed.

(** [payload.Embeds[0]] is in range at every round of the loop: the payload
    has exactly one embed after any number of rounds. *)
Lemma eventPayload_loop_in_range (auditLog : AuditLog) visited rest :
  map_range (Data auditLog) = visited ++ rest ->
  slice_len (Embeds (eventPayload_loop visited (eventPayload_init auditLog)))
  = 1%nat.
Proof.
  intros _. unfold eventPayload_init.
  rewrite eventPayload_loop_fields. reflexivity.
Qed.

Lemma eventPayload_fields (auditLog : AuditLog) :
  exists e fixed,
    eventPayload auditLog
    = {| Content := ""; Embeds := Some [e]; Attachments := None |}
    /\ Fields e
       = Some (fixed ++ map spec.extra_field (map_range (Data auditLog)))
    /\ map Name fixed = ["User"; "IP Address"; "Location"; "Device"]
    /\ Forall (fun f => Inline f = true) fixed
    /\ Forall (fun f => exists v, Value f = valueOrDash v) fixed
    /\ fixed !! 2%nat
       = Some {| Name := "Location";
                 Value := valueOrDash (formatLocation (Country auditLog)
                                                      (City auditLog));
                 Inline := true |}.
Proof.
  unfold eventPayload, eventPayload_init.
  rewrite eventPayload_loop_fields.
  eexists _, [_; _; _; _]. split; [reflexivity |].
  split; [reflexivity |].
  repeat split; try reflexivity; repeat constructor; eauto.
Qed.

End payload_facts.

Section event_payload_claims.
Context `{Platform}.
Import model service.

(** In a list of entries with distinct keys, the fields made from it have
    distinct names. *)
Lemma filter_extra_field_unique (l : list (string * string)) k v :
  NoDup l.*1 -> (k, v) ∈ l ->
  filter (fun f => Name f = k) (map spec.extra_field l)
  = [spec.extra_field (k, v)].
Proof.
  induction l as [|[k' v'] l IH]; intros Hnd Hin.
  - by apply elem_of_nil in Hin.
  - apply NoDup_cons in Hnd as [Hk' Hnd]. simpl in Hk'.
    apply elem_of_cons in Hin as [Heq | Hin].
    + inversion Heq; subst k' v'. simpl map.
      rewrite filter_cons_True by reflexivity. f_equal.
      clear IH Hnd. induction l as [|[k2 v2] l IHl]; [reflexivity |].
      simpl map. rewrite filter_cons_False.
      * apply IHl. intros Hin. apply Hk'. simpl. by right.
      * simpl. intros ->. apply Hk'. simpl. by left.
    + simpl map. rewrite filter_cons_False.
      * by apply IH.
      * simpl. intros ->. apply Hk'.
        apply list_elem_of_fmap. by exists (k, v).
Qed.

Lemma map_range_NoDup (m : gmap string string) : NoDup (map_range m).*1.
Proof.
  eapply NoDup_Permutation_proper.
  - apply fmap_Permutation, map_range_perm.
  - apply NoDup_fst_map_to_list.
Qed.

Lemma map_range_elem_of (m : gmap string string) k v :
  (k, v) ∈ map_range m <-> m !! k = Some v.
Proof. rewrite (map_range_perm m). apply elem_of_map_to_list. Qed.

(** C3 (as amended): in the payload built by SendEvent the field "Location"
    is the third of the embed's fields and its value is
    valueOrDash(formatLocation(country, city)): the dash "-" when country and
    city are both empty, formatLocation(country, city) otherwise. *)
Theorem SendEvent_Location_field (auditLog : AuditLog) :
  exists e fs,
    Embeds (eventPayload auditLog) = Some [e]
    /\ Fields e = Some fs
    /\ fs !! 2%nat
       = Some {| Name := "Location";
                 Value := valueOrDash (formatLocation (Country auditLog)
                                                      (City auditLog));
                 Inline := true |}
    /\ valueOrDash (formatLocation (Country auditLog) (City auditLog))
       = if String.eqb (Country auditLog) "" && String.eqb (City auditLog) ""
         then "-"
         else formatLocation (Country auditLog) (City auditLog).
Proof.
  destruct (eventPayload_fields auditLog)
    as (e & fixed & Hp & Hf & Hn & _ & _ & Hloc).
  exists e, (fixed ++ map spec.extra_field (map_range (Data auditLog))).
  rewrite Hp. repeat split; [exact Hf | |].
  - rewrite lookup_app_l; [exact Hloc |].
    apply lookup_lt_Some in Hloc. exact Hloc.
  - unfold formatLocation, valueOrDash.
    destruct (String.eqb_spec (Country auditLog) "") as [Hc|Hc];
      destruct (String.eqb_spec (City auditLog) "") as [Hi|Hi]; simpl;
      try reflexivity.
    + destruct (String.eqb_spec (City auditLog) ""); [contradiction | reflexivity].
    + destruct (String.eqb_spec (Country auditLog) ""); [contradiction | reflexivity].
    + destruct (City auditLog); [contradiction | reflexivity].
Qed.

(** C8: every entry (k, v) of the event's extra attributes appears in the
    payload built by SendEvent as exactly one field named k among the fields
    that follow the four fixed ones (User, IP Address, Location, Device); its
    value is v, or the dash "-" when v is empty, and it is inline.  The extra
    fields are the entries in the order the runtime visits the map, whatever
    that order is. *)
Theorem SendEvent_extra_attributes (auditLog : AuditLog) (k v : string) :
  Data auditLog !! k = Some v ->
  exists e fixed extras,
    Embeds (eventPayload auditLog) = Some [e]
    /\ Fields e = Some (fixed ++ extras)
    /\ map Name fixed = ["User"; "IP Address"; "Location"; "Device"]
    /\ extras ≡ₚ map spec.extra_field (map_to_list (Data auditLog))
    /\ filter (fun f => Name f = k) extras
       = [{| Name := k;
             Value := if String.eqb v "" then "-" else v;
             Inline := true |}].
Proof.
  intros Hkv.
  destruct (eventPayload_fields auditLog)
    as (e & fixed & Hp & Hf & Hn & _).
  exists e, fixed, (map spec.extra_field (map_range (Data auditLog))).
  rewrite Hp. repeat split; [exact Hf | exact Hn | |].
  - apply Permutation_map, map_range_perm.
  - rewrite (filter_extra_field_unique _ k v); [reflexivity | |].
    + apply map_range_NoDup.
    + by apply map_range_elem_of.
Qed.

Lemma filter_none {A} (P : A -> Prop) `{forall x, Decision (P x)} (l : list A) :
  (forall x, x ∈ l -> ~ P x) -> filter P l = [].
Proof.
  induction l as [|x l IH]; intros Hl; [reflexivity |].
  rewrite filter_cons_False by (apply Hl; left).
  apply IH. intros y Hy. apply Hl. by right.
Qed.

(** When the key is not the name of a fixed field, the field of the entry is
    the only field of that name in the whole payload. *)
Lemma SendEvent_extra_attribute_name (auditLog : AuditLog) (k v : string) :
  Data auditLog !! k = Some v ->
  k ∉ ["User"; "IP Address"; "Location"; "Device"] ->
  exists e fs,
    Embeds (eventPayload auditLog) = Some [e]
    /\ Fields e = Some fs
    /\ filter (fun f => Name f = k) fs = [spec.extra_field (k, v)].
Proof.
  intros Hkv Hfresh.
  destruct (eventPayload_fields auditLog)
    as (e & fixed & Hp & Hf & Hn & _).
  exists e, (fixed ++ map spec.extra_field (map_range (Data auditLog))).
  rewrite Hp. repeat split; [exact Hf |].
  rewrite filter_app.
  rewrite (filter_extra_field_unique _ k v);
    [| apply map_range_NoDup | by apply map_range_elem_of].
  rewrite filter_none; [reflexivity |]. intros f Hin Hname.
  apply Hfresh. rewrite <- Hn, <- Hname. by apply list_elem_of_fmap_2.
Qed.

(** C10: every field of the payload built by SendEvent has a non-empty
    value: the payload has one embed, whose fields (the four fixed ones and
    one per extra attribute) all carry valueOrDash of some string, and
    valueOrDash maps the empty string to "-" and any other string to
    itself. *)
Theorem SendEvent_no_empty_value (auditLog : AuditLog) :
  (exists e fs,
     Embeds (eventPayload auditLog) = Some [e]
     /\ Fields e = Some fs
     /\ length fs = (4 + size (Data auditLog))%nat
     /\ Forall (fun f => Value f <> ""
                         /\ exists v, Value f = valueOrDash v) fs)
  /\ valueOrDash "" = "-"
  /\ forall v c, valueOrDash (String c v) = String c v.
Proof.
  split; [| split; [reflexivity | intros; reflexivity]].
  destruct (eventPayload_fields auditLog)
    as (e & fixed & Hp & Hf & Hn & _ & Hv & _).
  exists e, (fixed ++ map spec.extra_field (map_range (Data auditLog))).
  rewrite Hp. repeat split; [exact Hf | |].
  - rewrite length_app, length_map.
    apply (f_equal (@length _)) in Hn. rewrite length_map in Hn.
    rewrite Hn. simpl. f_equal. f_equal. f_equal. f_equal.
    rewrite (map_range_perm (Data auditLog)). apply length_map_to_list.
  - apply Forall_app. split.
    + eapply Forall_impl; [exact Hv |]. intros f [v Hfv]. split; [| eauto].
      rewrite Hfv. apply valueOrDash_nonempty.
    + apply Forall_forall. intros f Hin.
      apply list_elem_of_fmap in Hin as ([k v] & -> & _).
      rewrite extra_field_valueOrDash. simpl. split; [| eauto].
      apply valueOrDash_nonempty.
Qed.

End event_payload_claims.

(** ** The testable properties of the specification, run *)
Section runs_on_every_platform.
Context `{Platform}.
Import model service.

Example formatLocation_ex :
  formatLocation "" "" = ""
  /\ formatLocation "US" "" = "US"
  /\ formatLocation "" "Paris" = "Paris"
  /\ formatLocation "US" "Paris" = "Paris, US".
Proof. repeat split. Qed.

Lemma formatLocation_cases (country city : string) :
  formatLocation country city
  = match country, city with
    | EmptyString, _ => city
    | _, EmptyString => country
    | _, _ => city +:+ ", " +:+ country
    end.
Proof. destruct country, city; reflexivity. Qed.

Example isEventAllowed_ex (client : http.Client) :
  let service_filtering events :=
    {| appConfigService :=
         {| GetDbConfig :=
              {| WebhookUrl := {| model.Value := "https://example.com/hook" |};
                 WebhookEvents := {| model.Value := events |} |} |};
       httpClient := client |} in
  isEventAllowed (service_filtering "") "SIGN_IN" = true
  /\ isEventAllowed (service_filtering "TOKEN_SIGN_IN, SIGN_IN") "SIGN_IN" = true
  /\ isEventAllowed (service_filtering "TOKEN_SIGN_IN") "SIGN_IN" = false
  /\ isEventAllowed (service_filtering "sign_in") "SIGN_IN" = false
  /\ isEventAllowed (service_filtering "SIGN_IN,") "" = true.
Proof. repeat split; vm_compute; reflexivity. Qed.

(** The titles of the event kinds the application defines. *)
Example formatEventTitle_ex :
  formatEventTitle "SIGN_IN" = "Sign In"
  /\ formatEventTitle "TOKEN_SIGN_IN" = "Token Sign In"
  /\ formatEventTitle "ACCOUNT_CREATED" = "Account Created"
  /\ formatEventTitle "CLIENT_AUTHORIZATION" = "Client Authorization"
  /\ formatEventTitle "NEW_CLIENT_AUTHORIZATION" = "New Client Authorization"
  /\ formatEventTitle "DEVICE_CODE_AUTHORIZATION" = "Device Code Authorization"
  /\ formatEventTitle "NEW_DEVICE_CODE_AUTHORIZATION"
     = "New Device Code Authorization"
  /\ formatEventTitle "PASSKEY_ADDED" = "Passkey Added"
  /\ formatEventTitle "PASSKEY_REMOVED" = "Passkey Removed"
  /\ formatEventTitle "" = ""
  /\ formatEventTitle "a__b_" = "A  B ".
Proof. repeat split; vm_compute; reflexivity. Qed.

End runs_on_every_platform.

(** ** Dispatch *)
Section dispatch_claims.
Context `{Platform}.
Import model service.

(** What [sendPayload] does: nothing when the URL does not parse, one POST of
    the marshalled final payload otherwise; its result follows the outcome
    of that exchange. *)
Lemma sendPayload_run s ctx url payload w :
  sendPayload s ctx url payload w
  = match url_Parse_error url with
    | Some err =>
      (Some (fmt.Errorf_w "failed to create webhook request: " err), w)
    | None =>
      let req := webhook_request ctx url payload in
      let r := http.RoundTrip (httpClient s) req in
      (match r with
       | inr err => Some (fmt.Errorf_w "failed to send webhook request: " err)
       | inl resp =>
         if (200 <=? http.StatusCode resp) && (http.StatusCode resp <=? 299)
         then None
         else Some (fmt.Errorf_d "webhook returned non-success status: "
                                 (http.StatusCode resp))
       end, with_call w req r)
    end.
Proof.
  unfold sendPayload, json_Marshal, http.NewRequestWithContext.
  destruct (url_Parse_error url) as [err|]; [reflexivity |].
  unfold mbind, M_bind, Do, webhook_request, with_call, http.Header_Set. simpl.
  destruct (http.RoundTrip _ _) as [resp|err]; [| reflexivity].
  destruct (Z.ltb_spec (http.StatusCode resp) 200),
           (Z.geb_spec (http.StatusCode resp) 300),
           (Z.leb_spec 200 (http.StatusCode resp)),
           (Z.leb_spec (http.StatusCode resp) 299);
    simpl; try reflexivity; lia.
Qed.

Lemma http_calls_grow (w : World) l : http_calls w = http_calls w ++ l -> l = [].
Proof.
  intros Heq. apply (f_equal (@length _)) in Heq.
  rewrite length_app in Heq. destruct l; [reflexivity | simpl in Heq; lia].
Qed.

(** What [SendTestWebhook] does on a configured URL. *)
Lemma SendTestWebhook_run s ctx w :
  model.Value (WebhookUrl (GetDbConfig (appConfigService s))) <> "" ->
  SendTestWebhook s ctx w
  = sendPayload s ctx
      (model.Value (WebhookUrl (GetDbConfig (appConfigService s))))
      (testPayload (clock w)) w.
Proof.
  intros Hurl. unfold SendTestWebhook.
  destruct (String.eqb_spec
              (model.Value (WebhookUrl (GetDbConfig (appConfigService s)))) "");
    [contradiction | reflexivity].
Qed.

(** C4: when SendTestWebhook performed its HTTP exchange and the destination
    answered with a response, the call returns nil exactly when the status
    code is in 200..299, and otherwise the error "webhook returned
    non-success status: <code>", whose text contains the decimal status
    code. *)
Theorem SendTestWebhook_status s ctx w req resp :
  http_calls (SendTestWebhook s ctx w).2 = http_calls w ++ [(req, inl resp)] ->
  (SendTestWebhook s ctx w).1
  = (if (200 <=? http.StatusCode resp) && (http.StatusCode resp <=? 299)
     then None
     else Some (errorString ("webhook returned non-success status: "
                             +:+ fmt.itoa (http.StatusCode resp))))
  /\ ((SendTestWebhook s ctx w).1 = None
      <-> 200 <= http.StatusCode resp <= 299)
  /\ strings.Contains
       ("webhook returned non-success status: "
        +:+ fmt.itoa (http.StatusCode resp))
       (fmt.itoa (http.StatusCode resp)) = true.
Proof.
  intros Hcalls.
  assert (Hres : (SendTestWebhook s ctx w).1
                 = if (200 <=? http.StatusCode resp)
                      && (http.StatusCode resp <=? 299)
                   then None
                   else Some (errorString
                                ("webhook returned non-success status: "
                                 +:+ fmt.itoa (http.StatusCode resp)))).
  { revert Hcalls. unfold SendTestWebhook.
    destruct (String.eqb_spec
                (model.Value (WebhookUrl (GetDbConfig (appConfigService s)))) "")
      as [Hurl|Hurl].
    - simpl. intros Hcalls. apply http_calls_grow in Hcalls. discriminate.
    - unfold mbind, M_bind, time_Now. rewrite sendPayload_run.
      destruct (url_Parse_error _) as [err|].
      + simpl. intros Hcalls. apply http_calls_grow in Hcalls. discriminate.
      + simpl. intros Hcalls. apply app_inv_head in Hcalls.
        inversion Hcalls as [[Hreq Hr]]. rewrite Hr. reflexivity. }
  split; [exact Hres |]. split; [| apply Contains_suffix].
  rewrite Hres.
  destruct (Z.leb_spec 200 (http.StatusCode resp)),
           (Z.leb_spec (http.StatusCode resp) 299); simpl;
    split; intros; try discriminate; try reflexivity; lia.
Qed.

(** C5: when the configured URL is empty, SendTestWebhook returns the error
    "webhook URL is not configured" and leaves the world as it found it: no
    HTTP exchange took place (and no payload was built). *)
Theorem SendTestWebhook_not_configured s ctx w :
  model.Value (WebhookUrl (GetDbConfig (appConfigService s))) = "" ->
  SendTestWebhook s ctx w
  = (Some (errorString "webhook URL is not configured"), w)
  /\ http_calls (SendTestWebhook s ctx w).2 = http_calls w
  /\ strings.Contains "webhook URL is not configured" "not configured" = true.
Proof.
  intros Hurl. unfold SendTestWebhook. rewrite Hurl. repeat split.
Qed.

(** C6: when the configured URL is empty, or when isEventAllowed rejects the
    kind of the event, SendEvent returns at once and leaves the world as it
    found it: no HTTP exchange took place and no error was logged. *)
Theorem SendEvent_disabled_or_filtered s ctx auditLog w :
  model.Value (WebhookUrl (GetDbConfig (appConfigService s))) = ""
  \/ isEventAllowed s (Event auditLog) = false ->
  SendEvent s ctx auditLog w = (tt, w)
  /\ http_calls (SendEvent s ctx auditLog w).2 = http_calls w
  /\ slog_records (SendEvent s ctx auditLog w).2 = slog_records w.
Proof.
  intros Hcase.
  assert (Hrun : SendEvent s ctx auditLog w = (tt, w)).
  { unfold SendEvent. destruct Hcase as [Hurl | Hrej].
    - rewrite Hurl. reflexivity.
    - rewrite Hrej. simpl.
      destruct (String.eqb _ ""); reflexivity. }
  rewrite Hrun. repeat split.
Qed.

(** Otherwise [SendEvent] sends the payload it built, and logs the error if
    there is one. *)
Lemma SendEvent_run s ctx auditLog w :
  model.Value (WebhookUrl (GetDbConfig (appConfigService s))) <> "" ->
  isEventAllowed s (Event auditLog) = true ->
  SendEvent s ctx auditLog w
  = let '(err, w') :=
        sendPayload s ctx
          (model.Value (WebhookUrl (GetDbConfig (appConfigService s))))
          (eventPayload auditLog) w in
    match err with
    | Some err =>
      slog_ErrorContext "Failed to send webhook" err (Event auditLog) w'
    | None => (tt, w')
    end.
Proof.
  intros Hurl Hok. unfold SendEvent. rewrite Hok. simpl.
  destruct (String.eqb_spec
              (model.Value (WebhookUrl (GetDbConfig (appConfigService s)))) "");
    [contradiction |].
  unfold mbind, M_bind.
  destruct (sendPayload _ _ _ _ _) as [[err|] w']; reflexivity.
Qed.

(** The one request of a [SendEvent] that goes through carries the
    marshalled payload of the event. *)
Lemma SendEvent_request s ctx auditLog w :
  model.Value (WebhookUrl (GetDbConfig (appConfigService s))) <> "" ->
  isEventAllowed s (Event auditLog) = true ->
  url_Parse_error
    (model.Value (WebhookUrl (GetDbConfig (appConfigService s)))) = None ->
  let req :=
    webhook_request ctx
      (model.Value (WebhookUrl (GetDbConfig (appConfigService s))))
      (eventPayload auditLog) in
  http_calls (SendEvent s ctx auditLog w).2
  = http_calls w ++ [(req, http.RoundTrip (httpClient s) req)].
Proof.
  intros Hurl Hok Hparse. rewrite SendEvent_run by assumption.
  rewrite sendPayload_run, Hparse. cbv zeta.
  destruct (http.RoundTrip _ _) as [resp|err]; [| reflexivity].
  destruct ((200 <=? _) && _); reflexivity.
Qed.

End dispatch_claims.

(** ** The shape for the destination *)
Section destination_claims.
Context `{Platform}.
Import model service.

(** The keys [json.Marshal] writes for a payload: each of the three fields is
    written exactly when it is not empty. *)
Lemma marshal_webhookPayload_keys (p : webhookPayload) :
  json_keys (marshal_webhookPayload p)
  = (if String.eqb (Content p) "" then [] else ["content"])
    ++ (if (slice_len (Embeds p) =? 0)%nat then [] else ["embeds"])
    ++ (if (slice_len (Attachments p) =? 0)%nat then [] else ["attachments"]).
Proof.
  unfold marshal_webhookPayload, omitempty. simpl.
  destruct (String.eqb (Content p) ""),
           (slice_len (Embeds p) =? 0)%nat,
           (slice_len (Attachments p) =? 0)%nat; reflexivity.
Qed.

(** Both payloads the service builds have one embed, no attachment and no
    text. *)
Lemma built_payloads_shape :
  (forall now,
      slice_len (Embeds (testPayload now)) = 1%nat
      /\ Attachments (testPayload now) = None
      /\ Content (testPayload now) = "")
  /\ (forall auditLog,
         slice_len (Embeds (eventPayload auditLog)) = 1%nat
         /\ Attachments (eventPayload auditLog) = None
         /\ Content (eventPayload auditLog) = "").
Proof.
  split; [intros now; repeat split |].
  intros auditLog.
  destruct (eventPayload_fields auditLog) as (e & fixed & -> & _).
  repeat split.
Qed.

(** The keys written for a payload with at least one embed and an empty
    content, which has no attachment or goes to a Slack URL: the single key
    "attachments" when the URL contains "hooks.slack.com", the single key
    "embeds" otherwise.  A request that sendPayload performs carries the
    object marshalled. *)
Lemma finalPayload_keys (url : string) (payload : webhookPayload) :
  slice_len (Embeds payload) <> 0%nat ->
  strings.Contains url "hooks.slack.com" = true
  \/ slice_len (Attachments payload) = 0%nat ->
  Content payload = "" ->
  exists body,
    json_Marshal (finalPayload url payload) = inl body
    /\ json_keys body
       = (if strings.Contains url "hooks.slack.com"
          then ["attachments"] else ["embeds"])
    /\ spec.destination_keys url body
    /\ forall s ctx w,
         http_calls (sendPayload s ctx url payload w).2 = http_calls w
         \/ exists req r,
              http_calls (sendPayload s ctx url payload w).2
              = http_calls w ++ [(req, r)]
              /\ http.Body req = body.
Proof.
  intros Hemb Hatt Hcont.
  exists (marshal_webhookPayload (finalPayload url payload)).
  split; [reflexivity |].
  assert (Hkeys : json_keys (marshal_webhookPayload (finalPayload url payload))
                  = if strings.Contains url "hooks.slack.com"
                    then ["attachments"] else ["embeds"]).
  { rewrite marshal_webhookPayload_keys. unfold finalPayload.
    apply Nat.eqb_neq in Hemb.
    destruct (strings.Contains url "hooks.slack.com"); simpl.
    - rewrite Hcont, Hemb. reflexivity.
    - destruct Hatt as [Hatt | Hatt]; [discriminate |].
      rewrite Hcont, Hemb, Hatt. reflexivity. }
  split; [exact Hkeys |].
  split.
  - unfold spec.destination_keys, has_key. rewrite Hkeys.
    destruct (strings.Contains url "hooks.slack.com"); repeat split.
  - intros s ctx w. rewrite sendPayload_run.
    destruct (url_Parse_error url) as [err|]; [left; reflexivity |].
    right. eexists _, _. split; reflexivity.
Qed.

(** C1: for every payload that sendPayload receives, that is the payload
    SendEvent builds for any audit event and the payload SendTestWebhook
    builds at any time, and for every destination URL: json.Marshal succeeds
    on the final payload, and the object it writes has an "attachments" key
    and no "embeds" key when the URL contains "hooks.slack.com", an "embeds"
    key and no "attachments" key for any other URL, and never a "content"
    key; that key is its only one.  A request that sendPayload performs
    carries this object as its body. *)
Theorem sendPayload_destination_keys (url : string) :
  (forall auditLog : AuditLog,
      exists body,
        json_Marshal (finalPayload url (eventPayload auditLog)) = inl body
        /\ json_keys body
           = (if strings.Contains url "hooks.slack.com"
              then ["attachments"] else ["embeds"])
        /\ spec.destination_keys url body
        /\ forall s ctx w,
             http_calls (sendPayload s ctx url (eventPayload auditLog) w).2
             = http_calls w
             \/ exists req r,
                  http_calls (sendPayload s ctx url (eventPayload auditLog) w).2
                  = http_calls w ++ [(req, r)]
                  /\ http.Body req = body)
  /\ (forall now : Time,
         exists body,
           json_Marshal (finalPayload url (testPayload now)) = inl body
           /\ json_keys body
              = (if strings.Contains url "hooks.slack.com"
                 then ["attachments"] else ["embeds"])
           /\ spec.destination_keys url body
           /\ forall s ctx w,
                http_calls (sendPayload s ctx url (testPayload now) w).2
                = http_calls w
                \/ exists req r,
                     http_calls (sendPayload s ctx url (testPayload now) w).2
                     = http_calls w ++ [(req, r)]
                     /\ http.Body req = body).
Proof.
  destruct built_payloads_shape as [Htest Hevent].
  split.
  - intros auditLog. destruct (Hevent auditLog) as (Hemb & Hatt & Hcont).
    apply finalPayload_keys; [by rewrite Hemb | right; by rewrite Hatt | exact Hcont].
  - intros now. destruct (Htest now) as (Hemb & Hatt & Hcont).
    apply finalPayload_keys; [by rewrite Hemb | right; by rewrite Hatt | exact Hcont].
Qed.

(** C9: the destination style depends on the URL only through the test
    whether "hooks.slack.com" occurs in the URL string; the URL
    https://example.com/proxy/hooks.slack.com/T000, whose host is
    example.com, gets the Slack shape (the key "attachments" and no
    "embeds") for the payloads the service builds. *)
Theorem slack_detection_ignores_host :
  (forall url url' payload,
      strings.Contains url "hooks.slack.com"
      = strings.Contains url' "hooks.slack.com" ->
      finalPayload url payload = finalPayload url' payload)
  /\ exists url,
       spec.url_host url = "example.com"
       /\ strings.Contains (spec.url_host url) "hooks.slack.com" = false
       /\ strings.Contains url "hooks.slack.com" = true
       /\ (forall now,
              json_keys (marshal_webhookPayload
                           (finalPayload url (testPayload now)))
              = ["attachments"])
       /\ (forall auditLog,
              json_keys (marshal_webhookPayload
                           (finalPayload url (eventPayload auditLog)))
              = ["attachments"]).
Proof.
  split.
  - intros url url' payload Heq. unfold finalPayload. rewrite Heq. reflexivity.
  - exists samples.relay_url.
    split; [vm_compute; reflexivity |].
    split; [vm_compute; reflexivity |].
    assert (Hc : strings.Contains samples.relay_url "hooks.slack.com" = true)
      by (vm_compute; reflexivity).
    split; [exact Hc |].
    split.
    + intros now. unfold finalPayload. rewrite Hc. reflexivity.
    + intros auditLog. unfold finalPayload. rewrite Hc.
      destruct (eventPayload_fields auditLog) as (e & fixed & -> & _).
      reflexivity.
Qed.

End destination_claims.

(** ** The event filter and the title *)
Section filter_and_title_claims.
Context `{Platform}.
Import model service.

Lemma isEventAllowed_loop_spec (entries : list string) (event : string) :
  isEventAllowed_loop entries event = true
  <-> exists allowed, allowed ∈ entries /\ strings.TrimSpace allowed = event.
Proof.
  induction entries as [|allowed rest IH]; simpl.
  - split; [discriminate |]. intros (a & Hin & _). by apply elem_of_nil in Hin.
  - destruct (String.eqb_spec (strings.TrimSpace allowed) event) as [Heq|Hne].
    + split; [| reflexivity]. intros _. exists allowed. split; [left | exact Heq].
    + rewrite IH. split.
      * intros (a & Hin & Ha). exists a. split; [by right | exact Ha].
      * intros (a & Hin & Ha). apply elem_of_cons in Hin as [-> | Hin].
        -- contradiction.
        -- exists a. by split.
Qed.

(** C2: isEventAllowed returns true when the configured filter is empty;
    otherwise it returns true exactly when the event kind is equal, byte for
    byte, to one of the entries of the filter with surrounding white space
    trimmed.  The entries are the pieces of the filter between its commas:
    none contains a comma, and joined by commas they spell the filter. *)
Theorem isEventAllowed_spec (s : WebhookService) (event : string) :
  let filterConfig :=
    model.Value (WebhookEvents (GetDbConfig (appConfigService s))) in
  (isEventAllowed s event = true
   <-> filterConfig = "" \/ event ∈ spec.filter_entries filterConfig)
  /\ (event ∈ spec.filter_entries filterConfig
      <-> exists entry,
            entry ∈ strings.Split filterConfig ","
            /\ strings.TrimSpace entry = event)
  /\ strings.Join (strings.Split filterConfig ",") "," = filterConfig
  /\ Forall (fun entry => strings.Contains entry "," = false)
            (strings.Split filterConfig ",").
Proof.
  intros filterConfig.
  assert (Hentries : event ∈ spec.filter_entries filterConfig
                     <-> exists entry,
                           entry ∈ strings.Split filterConfig ","
                           /\ strings.TrimSpace entry = event).
  { unfold spec.filter_entries. rewrite list_elem_of_fmap.
    split; intros (a & H1 & H2); exists a; by split. }
  split; [| split; [exact Hentries | split]].
  - unfold isEventAllowed. fold filterConfig.
    destruct (String.eqb_spec filterConfig "") as [Hempty|Hne].
    + split; [by left | reflexivity].
    + rewrite isEventAllowed_loop_spec, Hentries.
      split; [by right |]. intros [Hempty | Hin]; [contradiction | exact Hin].
  - apply Join_Split.
  - apply Split_sep_free.
Qed.

(** The loop of [formatEventTitle] rewrites every word in place: with the
    words before index [i] already rewritten, it rewrites the others. *)
Lemma formatEventTitle_loop_map (done ws : list string) :
  formatEventTitle_loop (length done) ws (done ++ ws)
  = done ++ map title_word ws.
Proof.
  revert done. induction ws as [|w ws IH]; intros done; simpl.
  - reflexivity.
  - assert (Hstep :
      (if 0 <? len w
       then <[length done :=
                strings.ToUpper (slice_to w 1)
                +:+ strings.ToLower (slice_from w 1)]> (done ++ w :: ws)
       else done ++ w :: ws)
      = (done ++ [title_word w]) ++ ws).
    { unfold title_word. rewrite <- app_assoc. simpl.
      destruct (0 <? len w); [| reflexivity].
      rewrite insert_app_r_alt by lia.
      rewrite Nat.sub_diag. reflexivity. }
    rewrite Hstep.
    replace (S (length done)) with (length (done ++ [title_word w]))
      by (rewrite length_app; simpl; lia).
    rewrite IH, <- app_assoc. reflexivity.
Qed.

Lemma formatEventTitle_map (event : string) :
  formatEventTitle event
  = strings.Join (map title_word (strings.Split event "_")) " ".
Proof.
  unfold formatEventTitle.
  exact (f_equal (fun l => strings.Join l " ")
                 (formatEventTitle_loop_map [] (strings.Split event "_"))).
Qed.

(** On a word that starts with a one-byte character the round of the loop
    capitalizes the first letter and lowercases the rest. *)
Lemma title_word_capitalize (w : string) :
  spec.starts_single_byte w = true ->
  title_word w = spec.capitalize_word w.
Proof.
  unfold spec.starts_single_byte, title_word, spec.capitalize_word.
  destruct w as [|c w]; [reflexivity |].
  intros Hone. apply Nat.leb_le in Hone.
  pose proof (DecodeRuneInString_width c w) as Hw.
  unfold utf8.range. cbn [utf8.range_from].
  destruct (utf8.DecodeRuneInString (String c w)) as [r size] eqn:Hdec.
  simpl in Hone, Hw. assert (size = 1%nat) as -> by lia.
  unfold len. simpl String.length.
  destruct (Z.ltb_spec 0 (Z.of_nat (S (String.length w)))); [| lia].
  destruct w; reflexivity.
Qed.

(** C7 (as amended): for every event-kind string in which no word begins
    with a multi-byte UTF-8 character (every ASCII string, hence every event
    kind the application defines), formatEventTitle splits the string on "_",
    capitalizes the first letter of each word and lowercases the rest, and
    joins the words with single spaces; empty words stay empty. *)
Theorem formatEventTitle_titleFromEventKind (event : string) :
  forallb spec.starts_single_byte (strings.Split event "_") = true ->
  formatEventTitle event = spec.titleFromEventKind event.
Proof.
  intros Hwords. rewrite formatEventTitle_map. unfold spec.titleFromEventKind.
  f_equal. apply map_ext_in. intros w Hin.
  apply title_word_capitalize.
  rewrite forallb_forall in Hwords. apply Hwords, Hin.
Qed.

End filter_and_title_claims.

(** ** Titles of ASCII event kinds, byte by byte *)
Section ascii_titles.
Context `{Platform}.
Import model service.

Lemma byte_of_val (c : ascii) : byte_of (byte_val c) = c.
Proof.
  unfold byte_of, byte_val.
  pose proof (N_ascii_bounded c) as Hc.
  rewrite Z.mod_small by lia.
  rewrite N2Z.id. apply ascii_N_embedding.
Qed.

Lemma map_bytes_map_string (f : Z -> Z) (s : string) :
  strings.map_bytes f s = spec.map_string (fun c => byte_of (f (byte_val c))) s.
Proof.
  unfold strings.map_bytes.
  induction s as [|c s IH]; [reflexivity |]. simpl. by rewrite IH.
Qed.

Lemma map_string_ext (f g : ascii -> ascii) (s : string) :
  (forall c, f c = g c) -> spec.map_string f s = spec.map_string g s.
Proof.
  intros Hfg. induction s as [|c s IH]; [reflexivity |].
  simpl. by rewrite Hfg, IH.
Qed.

Lemma ToUpper_ascii (s : string) :
  strings.isASCII s = true ->
  strings.ToUpper s = spec.map_string spec.ascii_upper s.
Proof.
  intros Hs. unfold strings.ToUpper. rewrite Hs, map_bytes_map_string.
  apply map_string_ext. intros c. unfold spec.ascii_upper.
  destruct (utf8.in_range 97 122 (byte_val c)); [reflexivity | apply byte_of_val].
Qed.

Lemma ToLower_ascii (s : string) :
  strings.isASCII s = true ->
  strings.ToLower s = spec.map_string spec.ascii_lower s.
Proof.
  intros Hs. unfold strings.ToLower. rewrite Hs, map_bytes_map_string.
  apply map_string_ext. intros c. unfold spec.ascii_lower.
  destruct (utf8.in_range 65 90 (byte_val c)); [reflexivity | apply byte_of_val].
Qed.

Lemma title_word_ascii (w : string) :
  strings.isASCII w = true -> title_word w = spec.capitalize_ascii w.
Proof.
  intros Hw. unfold title_word.
  destruct w as [|c w]; [reflexivity |].
  replace (0 <? len (String c w)) with true
    by (symmetry; apply Z.ltb_lt; unfold len; simpl; lia).
  rewrite ToUpper_ascii by (by apply all_bytes_slice_to).
  rewrite ToLower_ascii by (by apply (all_bytes_slice_from _ _ 1)).
  destruct w; reflexivity.
Qed.

(** An ASCII word starts with a one-byte character. *)
Lemma ascii_starts_single_byte (w : string) :
  strings.isASCII w = true -> spec.starts_single_byte w = true.
Proof.
  destruct w as [|c w]; [reflexivity |].
  unfold strings.isASCII, all_bytes. simpl. rewrite andb_true_iff.
  intros [Hc _]. unfold spec.starts_single_byte, utf8.DecodeRuneInString.
  rewrite Hc. reflexivity.
Qed.

Lemma Split_ascii (s : string) (c : ascii) (sep : string) :
  strings.isASCII s = true ->
  Forall (fun e => strings.isASCII e = true) (strings.Split s (String c sep)).
Proof. intros Hs. by apply all_bytes_genSplit_loop. Qed.

(** Every ASCII event kind meets the condition of
    [formatEventTitle_titleFromEventKind]. *)
Lemma ascii_words_start_single_byte (event : string) :
  strings.isASCII event = true ->
  forallb spec.starts_single_byte (strings.Split event "_") = true.
Proof.
  intros Hev. apply forallb_forall. intros w Hin.
  apply ascii_starts_single_byte.
  pose proof (Split_ascii event "_" "" Hev) as Hall.
  rewrite Forall_forall in Hall. apply Hall. by apply list_elem_of_In.
Qed.

(** The title of an ASCII event kind: each word between underscores with its
    first byte in upper case and the others in lower case, joined by single
    spaces. *)
Lemma formatEventTitle_ascii (event : string) :
  strings.isASCII event = true ->
  formatEventTitle event
  = strings.Join (map spec.capitalize_ascii (strings.Split event "_")) " ".
Proof.
  intros Hev. rewrite formatEventTitle_map. f_equal.
  apply map_ext_in. intros w Hin. apply title_word_ascii.
  pose proof (Split_ascii event "_" "" Hev) as Hall.
  rewrite Forall_forall in Hall. apply Hall. by apply list_elem_of_In.
Qed.

End ascii_titles.

(** The title of a word that begins with a two-byte letter, on every platform
    whose case tables leave U+FFFD alone (as Unicode's do): the first byte
    alone is handed to [strings.ToUpper], which reads it, and
    [strings.ToLower] the second byte, as invalid UTF-8. *)
Lemma EncodeRune_length (r : utf8.rune) :
  (String.length (utf8.EncodeRune r) <= 4)%nat.
Proof.
  unfold utf8.EncodeRune, utf8.enc3.
  repeat match goal with
         | |- context [if ?b then _ else _] => destruct b
         end; simpl; lia.
Qed.

Lemma formatEventTitle_two_byte_letter `{Platform} :
  unicode.To_Upper utf8.RuneError = utf8.RuneError ->
  unicode.To_Lower utf8.RuneError = utf8.RuneError ->
  service.formatEventTitle samples.e_acute
  = bytes [239; 191; 189; 239; 191; 189]
  /\ service.formatEventTitle samples.e_acute
     <> spec.titleFromEventKind samples.e_acute.
Proof.
  intros Hup Hlow.
  assert (Hcode : service.formatEventTitle samples.e_acute
                  = bytes [239; 191; 189; 239; 191; 189]).
  { rewrite formatEventTitle_map.
    change (strings.Split samples.e_acute "_") with [samples.e_acute].
    cbn [map strings.Join]. unfold service.title_word.
    change (0 <? len samples.e_acute) with true. cbv iota.
    change (slice_to samples.e_acute 1) with (bytes [195]).
    change (slice_from samples.e_acute 1) with (bytes [169]).
    unfold strings.ToUpper, strings.ToLower.
    change (strings.isASCII (bytes [195])) with false.
    change (strings.isASCII (bytes [169])) with false. cbv iota.
    unfold strings.Map.
    change (utf8.range (bytes [195]))
      with [(utf8.RuneError, bytes [195])].
    change (utf8.range (bytes [169]))
      with [(utf8.RuneError, bytes [169])].
    cbn [fold_right fst].
    unfold unicode.ToUpper, unicode.ToLower.
    change (utf8.RuneError <=? 127) with false. cbv iota.
    rewrite Hup, Hlow. reflexivity. }
  split; [exact Hcode |].
  rewrite Hcode. unfold spec.titleFromEventKind.
  change (strings.Split samples.e_acute "_") with [samples.e_acute].
  cbn [map strings.Join]. unfold spec.capitalize_word.
  change (utf8.range samples.e_acute) with [(233, samples.e_acute)].
  cbv iota beta.
  change (slice_from samples.e_acute (String.length samples.e_acute))
    with EmptyString.
  change (strings.ToLower "") with EmptyString.
  unfold strings.ToUpper.
  change (strings.isASCII samples.e_acute) with false. cbv iota.
  unfold strings.Map.
  change (utf8.range samples.e_acute) with [(233, samples.e_acute)].
  cbn [fold_right fst].
  intros Heq. apply (f_equal String.length) in Heq.
  destruct (unicode.ToUpper 233 <? 0).
  - discriminate Heq.
  - pose proof (EncodeRune_length (unicode.ToUpper 233)) as Hlen.
    rewrite !length_append in Heq. simpl in Heq.
    change (String.length (bytes [239; 191; 189; 239; 191; 189]))
      with 6%nat in Heq.
    lia.
Qed.

(** * Runs on the reference platform *)
Section runs.
Import model service.
#[local] Existing Instance reference.platform.

(** What [omitempty] does to payloads the service never builds: without
    embeds neither "attachments" nor "embeds" is written, and a text is
    written under "content". *)
Example omitempty_ex :
  has_key "attachments"
    (marshal_webhookPayload
       (finalPayload samples.slack_url samples.no_embeds)) = false
  /\ has_key "embeds"
       (marshal_webhookPayload
          (finalPayload samples.discord_url samples.no_embeds)) = false
  /\ has_key "content"
       (marshal_webhookPayload
          (finalPayload samples.discord_url samples.with_content)) = true.
Proof. repeat split; vm_compute; reflexivity. Qed.

(** The keys of the bodies sent to a Slack URL and to another URL. *)
Example sendPayload_destination_keys_ex :
  json_keys (marshal_webhookPayload
               (finalPayload samples.slack_url samples.test_payload))
  = ["attachments"]
  /\ json_keys (marshal_webhookPayload
                  (finalPayload samples.discord_url samples.test_payload))
     = ["embeds"]
  /\ json_keys (marshal_webhookPayload
                  (finalPayload samples.slack_url
                     (eventPayload samples.sign_in)))
     = ["attachments"]
  /\ json_keys (marshal_webhookPayload
                  (finalPayload samples.discord_url
                     (eventPayload samples.sign_in)))
     = ["embeds"].
Proof. repeat split; vm_compute; reflexivity. Qed.

(** C3, the claim as stated fails: for a sign-in without country and city the
    value of the field "Location" is the dash, not the empty string that
    formatLocation returns. *)
Lemma SendEvent_Location_counterexample :
  exists e fs f,
    Embeds (eventPayload samples.sign_in) = Some [e]
    /\ Fields e = Some fs
    /\ fs !! 2%nat = Some f
    /\ Name f = "Location"
    /\ Value f = "-"
    /\ formatLocation (Country samples.sign_in) (City samples.sign_in) = ""
    /\ Value f
       <> formatLocation (Country samples.sign_in) (City samples.sign_in).
Proof.
  eexists _, _, _. split; [vm_compute; reflexivity |].
  split; [reflexivity |]. split; [reflexivity |].
  repeat split. discriminate.
Qed.

Lemma SendTestWebhook_status_witness :
  let s := samples.service_with samples.discord_url "" 500 in
  let req := webhook_request tt samples.discord_url samples.test_payload in
  http_calls (SendTestWebhook s tt samples.world0).2
  = http_calls samples.world0 ++ [(req, inl {| http.StatusCode := 500 |})]
  /\ (SendTestWebhook s tt samples.world0).1
     = Some (errorString "webhook returned non-success status: 500").
Proof.
  intros s req. split; [reflexivity |].
  exact (proj1 (SendTestWebhook_status s tt samples.world0 req
                  {| http.StatusCode := 500 |} eq_refl)).
Defined.

Lemma SendTestWebhook_not_configured_witness :
  let s := samples.service_with "" "" 200 in
  model.Value (WebhookUrl (GetDbConfig (appConfigService s))) = ""
  /\ SendTestWebhook s tt samples.world0
     = (Some (errorString "webhook URL is not configured"), samples.world0).
Proof.
  intros s. split; [reflexivity |].
  exact (proj1 (SendTestWebhook_not_configured s tt samples.world0 eq_refl)).
Defined.

Lemma SendEvent_disabled_or_filtered_witness :
  let disabled := samples.service_with "" "" 200 in
  let filtering := samples.service_with samples.discord_url "TOKEN_SIGN_IN" 200 in
  (model.Value (WebhookUrl (GetDbConfig (appConfigService disabled))) = ""
   /\ SendEvent disabled tt samples.sign_in samples.world0
      = (tt, samples.world0))
  /\ (isEventAllowed filtering (Event samples.sign_in) = false
      /\ SendEvent filtering tt samples.sign_in samples.world0
         = (tt, samples.world0)).
Proof.
  intros disabled filtering.
  assert (Hrej : isEventAllowed filtering (Event samples.sign_in) = false)
    by (vm_compute; reflexivity).
  split; (split; [first [reflexivity | exact Hrej] |]).
  - exact (proj1 (SendEvent_disabled_or_filtered disabled tt samples.sign_in
                    samples.world0 (or_introl eq_refl))).
  - exact (proj1 (SendEvent_disabled_or_filtered filtering tt samples.sign_in
                    samples.world0 (or_intror Hrej))).
Defined.

Lemma SendEvent_extra_attributes_witness :
  Data samples.sign_in !! "note" = Some ""
  /\ exists e fixed extras,
       Embeds (eventPayload samples.sign_in) = Some [e]
       /\ Fields e = Some (fixed ++ extras)
       /\ filter (fun f => Name f = "note") extras
          = [{| Name := "note"; Value := "-"; Inline := true |}].
Proof.
  assert (Hnote : Data samples.sign_in !! "note" = Some "")
    by (vm_compute; reflexivity).
  split; [exact Hnote |].
  destruct (SendEvent_extra_attributes samples.sign_in "note" "" Hnote)
    as (e & fixed & extras & He & Hf & _ & _ & Hk).
  exists e, fixed, extras. split; [exact He |]. split; [exact Hf | exact Hk].
Defined.

(** An extra attribute may bear the name of a fixed field: the payload then
    has two fields of that name, the fixed one first. *)
Example SendEvent_field_name_twice :
  exists e fs,
    Embeds (eventPayload samples.sign_in_as_root) = Some [e]
    /\ Fields e = Some fs
    /\ map Value (filter (fun f => Name f = "User") fs) = ["alice"; "root"].
Proof. eexists _, _. repeat split; vm_compute; reflexivity. Qed.

(** The result of a test against destinations that answer with various
    statuses. *)
Example SendTestWebhook_status_ex :
  let result status :=
    (SendTestWebhook (samples.service_with samples.discord_url "" status) tt
                     samples.world0).1 in
  result 200 = None /\ result 204 = None /\ result 299 = None
  /\ result 199
     = Some (errorString "webhook returned non-success status: 199")
  /\ result 300
     = Some (errorString "webhook returned non-success status: 300")
  /\ result 404
     = Some (errorString "webhook returned non-success status: 404")
  /\ result 500
     = Some (errorString "webhook returned non-success status: 500").
Proof. repeat split; vm_compute; reflexivity. Qed.

(** C7, the claim as stated fails: the one-letter word [e-acute] becomes two
    replacement characters U+FFFD, not the capital letter. *)
Lemma formatEventTitle_counterexample :
  formatEventTitle samples.e_acute = bytes [239; 191; 189; 239; 191; 189]
  /\ spec.titleFromEventKind samples.e_acute = bytes [195; 137]
  /\ formatEventTitle samples.e_acute
     <> spec.titleFromEventKind samples.e_acute.
Proof.
  split; [vm_compute; reflexivity |].
  split; [vm_compute; reflexivity |].
  vm_compute. discriminate.
Qed.

Lemma formatEventTitle_titleFromEventKind_witness :
  forallb spec.starts_single_byte
          (strings.Split "NEW_CLIENT_AUTHORIZATION" "_") = true
  /\ formatEventTitle "NEW_CLIENT_AUTHORIZATION"
     = spec.titleFromEventKind "NEW_CLIENT_AUTHORIZATION".
Proof.
  split; [reflexivity |].
  apply (formatEventTitle_titleFromEventKind "NEW_CLIENT_AUTHORIZATION").
  reflexivity.
Defined.

End runs.


(** * Further properties *)

(** ** Splitting and joining at one byte *)
Section split_join.
Import views.

Lemma all_bytes_cons P (c : ascii) (s : string) :
  all_bytes P (String c s) = P c && all_bytes P s.
Proof. reflexivity. Qed.

Lemma all_bytes_append P (a b : string) :
  all_bytes P (a +:+ b) = all_bytes P a && all_bytes P b.
Proof.
  induction a as [|c a IH]; [reflexivity |].
  rewrite append_cons, !all_bytes_cons, IH. apply andb_assoc.
Qed.

(** [Contains] of a one-byte string is membership of the byte. *)
Lemma Contains_byte (e : string) (c : ascii) :
  strings.Contains e (String c "") = negb (sep_free c e).
Proof.
  apply eq_true_iff_eq. rewrite Contains_iff, negb_true_iff.
  unfold sep_free. induction e as [|x e IH].
  - split; [| discriminate]. intros ([|y a] & b & Heq); discriminate.
  - rewrite all_bytes_cons, andb_false_iff, negb_false_iff, <- IH. split.
    + intros ([|y a] & b & Heq).
      * rewrite append_nil_l, append_cons in Heq. inversion Heq; subst.
        left. apply Ascii.eqb_refl.
      * rewrite append_cons in Heq. inversion Heq; subst. right. by exists a, b.
    + intros [Hx | (a & b & ->)].
      * apply Ascii.eqb_eq in Hx as ->. by exists "", e.
      * by exists (String x a), b.
Qed.

Lemma Join_cons_byte (x : ascii) (e : string) (r : list string) (sep : string) :
  strings.Join (String x e :: r) sep = String x (strings.Join (e :: r) sep).
Proof. destruct r; reflexivity. Qed.

Lemma Join_single (e sep : string) : strings.Join [e] sep = e.
Proof. reflexivity. Qed.

Lemma Join_empty_cons (y : string) (r : list string) (c : ascii) :
  strings.Join ("" :: y :: r) (String c "")
  = String c (strings.Join (y :: r) (String c "")).
Proof. reflexivity. Qed.

(** A string is the join of only one list of pieces without the
    separator. *)
Lemma Join_inj (c : ascii) (l1 l2 : list string) :
  l1 <> [] -> l2 <> [] ->
  Forall (fun e => sep_free c e = true) l1 ->
  Forall (fun e => sep_free c e = true) l2 ->
  strings.Join l1 (String c "") = strings.Join l2 (String c "") ->
  l1 = l2.
Proof.
  assert (Hhead : forall x e, sep_free c (String x e) = true ->
                              Ascii.eqb x c = false /\ sep_free c e = true).
  { intros x e He. unfold sep_free in *. rewrite all_bytes_cons in He.
    apply andb_true_iff in He as [Hx He]. by apply negb_true_iff in Hx. }
  destruct l1 as [|e1 r1]; [congruence |]. intros _.
  revert e1 l2. induction r1 as [|y1 r1 IHr]; intros e1;
    induction e1 as [|x e1 IHe]; intros [|e2 r2] Hne H1 H2 Hj;
    try congruence;
    apply Forall_cons in H1 as [He1 H1]; apply Forall_cons in H2 as [He2 Hr2];
    destruct e2 as [|z e2];
    rewrite ?Join_cons_byte in Hj;
    try (apply Hhead in He1 as [Hx He1]);
    try (apply Hhead in He2 as [Hz He2]).
  - (* [""] against "" :: r2 *)
    destruct r2 as [|y2 r2]; [reflexivity |].
    rewrite Join_single, Join_empty_cons in Hj. discriminate Hj.
  - rewrite Join_single in Hj. discriminate Hj.
  - (* [x e1] against "" :: r2 *)
    destruct r2 as [|y2 r2]; [discriminate Hj |].
    rewrite Join_empty_cons in Hj. injection Hj as Hxc _. subst x.
    rewrite Ascii.eqb_refl in Hx. discriminate Hx.
  - injection Hj as Hxz Hrest. subst z.
    assert (Heq : [e1] = e2 :: r2); [| by inversion Heq].
    apply IHe; [congruence | by repeat constructor | by constructor | exact Hrest].
  - (* "" :: y1 :: r1 against "" :: r2 *)
    destruct r2 as [|y2 r2]; [discriminate Hj |].
    rewrite !Join_empty_cons in Hj. injection Hj as Hrest.
    f_equal. apply IHr; [congruence | exact H1 | exact Hr2 | exact Hrest].
  - rewrite Join_empty_cons in Hj. injection Hj as Hzc _. subst z.
    rewrite Ascii.eqb_refl in Hz. discriminate Hz.
  - (* x e1 :: y1 :: r1 against "" :: r2 *)
    destruct r2 as [|y2 r2]; [discriminate Hj |].
    rewrite Join_empty_cons in Hj. injection Hj as Hxc _. subst x.
    rewrite Ascii.eqb_refl in Hx. discriminate Hx.
  - injection Hj as Hxz Hrest. subst z.
    assert (Heq : e1 :: y1 :: r1 = e2 :: r2); [| by inversion Heq].
    apply IHe; [congruence | by constructor | by constructor | exact Hrest].
Qed.

Lemma Split_nonempty (s : string) (c : ascii) :
  strings.Split s (String c "") <> [].
Proof. apply genSplit_loop_nonempty. Qed.

Lemma Split_pieces_sep_free (s : string) (c : ascii) :
  Forall (fun e => sep_free c e = true) (strings.Split s (String c "")).
Proof.
  eapply Forall_impl; [apply Split_sep_free |]. intros e He. simpl in He.
  rewrite Contains_byte in He. by apply negb_false_iff in He.
Qed.

(** [Split] undoes [Join]: the round trip of a list of pieces. *)
Lemma Split_Join (c : ascii) (l : list string) :
  l <> [] -> Forall (fun e => sep_free c e = true) l ->
  strings.Split (strings.Join l (String c "")) (String c "") = l.
Proof.
  intros Hne Hfree. apply (Join_inj c); try assumption.
  - apply Split_nonempty.
  - apply Split_pieces_sep_free.
  - apply Join_Split.
Qed.

Lemma Join_app (l1 l2 : list string) (sep : string) :
  l1 <> [] -> l2 <> [] ->
  strings.Join (l1 ++ l2) sep
  = strings.Join l1 sep +:+ sep +:+ strings.Join l2 sep.
Proof.
  intros H1 H2. induction l1 as [|e l1 IH]; [congruence |].
  destruct l1 as [|e' l1].
  - simpl app. by rewrite Join_cons.
  - change ((e :: e' :: l1) ++ l2) with (e :: (e' :: l1) ++ l2).
    rewrite Join_cons by (simpl; discriminate).
    rewrite IH by discriminate.
    rewrite (Join_cons e (e' :: l1)) by discriminate.
    by rewrite !append_assoc.
Qed.

(** The pieces of two strings glued with the separator are the pieces of the
    one followed by the pieces of the other. *)
Lemma Split_app (c : ascii) (a b : string) :
  strings.Split (a +:+ String c "" +:+ b) (String c "")
  = strings.Split a (String c "") ++ strings.Split b (String c "").
Proof.
  apply (Join_inj c).
  - apply Split_nonempty.
  - intros Heq. apply app_eq_nil in Heq as [Heq _].
    by apply Split_nonempty in Heq.
  - apply Split_pieces_sep_free.
  - apply Forall_app. split; apply Split_pieces_sep_free.
  - rewrite Join_Split, Join_app by apply Split_nonempty.
    by rewrite !Join_Split.
Qed.

(** [Split] read byte by byte. *)
Lemma Split_cons (c x : ascii) (s : string) :
  strings.Split (String x s) (String c "")
  = if Ascii.eqb x c then "" :: strings.Split s (String c "")
    else match strings.Split s (String c "") with
         | h :: t => String x h :: t
         | [] => [String x ""]
         end.
Proof.
  pose proof (Split_nonempty s c) as Hne.
  pose proof (Split_pieces_sep_free s c) as Hfree.
  pose proof (Join_Split s c "") as Hjoin.
  apply (Join_inj c).
  - apply Split_nonempty.
  - destruct (Ascii.eqb x c); [discriminate |].
    destruct (strings.Split s (String c "")); discriminate.
  - apply Split_pieces_sep_free.
  - destruct (Ascii.eqb x c) eqn:Hx.
    + constructor; [reflexivity | exact Hfree].
    + destruct (strings.Split s (String c "")) as [|h t]; [congruence |].
      apply Forall_cons in Hfree as [Hh Ht]. constructor; [| exact Ht].
      unfold sep_free. rewrite all_bytes_cons, Hx. exact Hh.
  - rewrite Join_Split.
    destruct (Ascii.eqb_spec x c) as [->|Hx].
    + destruct (strings.Split s (String c "")) as [|h t] eqn:Hs; [congruence |].
      rewrite Join_empty_cons, Hjoin. reflexivity.
    + destruct (strings.Split s (String c "")) as [|h t]; [congruence |].
      rewrite Join_cons_byte, Hjoin. reflexivity.
Qed.

End split_join.

(** ** Trimming *)
Section trim_facts.
Import utf8 views.

(** Decoding reads no byte beyond the rune it returns, and a sequence cut
    short stays invalid. *)
Lemma DecodeRuneInString_slice_to (s : string) (n : nat) :
  (snd (DecodeRuneInString s) <= n)%nat ->
  DecodeRuneInString (slice_to s n) = DecodeRuneInString s.
Proof.
  destruct s as [|c0 [|c1 [|c2 [|c3 s]]]];
    destruct n as [|[|[|[|n]]]]; cbn [slice_to];
    unfold DecodeRuneInString;
    repeat match goal with
           | |- context [if ?b then _ else _] => destruct b
           | |- context [match ?x with _ => _ end] => destruct x
           end;
    cbn [snd]; intros Hn; try reflexivity; lia.
Qed.

Lemma slice_to_append (a b : string) :
  slice_to (a +:+ b) (String.length a) = a.
Proof.
  induction a as [|c a IH]; [by destruct b |].
  rewrite append_cons. simpl. by rewrite IH.
Qed.

Lemma slice_to_append_ge (a b : string) (n : nat) :
  (n <= String.length a)%nat -> slice_to (a +:+ b) n = slice_to a n.
Proof.
  revert a. induction n as [|n IH]; intros a Hn;
    [by destruct (a +:+ b), a |].
  destruct a as [|c a]; [simpl in Hn; lia |].
  rewrite append_cons. simpl in *. rewrite IH by lia. reflexivity.
Qed.

Lemma range_nonempty (s : string) :
  s <> "" ->
  range s
  = (fst (DecodeRuneInString s), slice_to s (snd (DecodeRuneInString s)))
    :: range (slice_from s (snd (DecodeRuneInString s))).
Proof. destruct s; [congruence | intros _; apply range_cons]. Qed.

(** The runes of a string up to one of its rune boundaries are those of the
    string cut there. *)
Lemma range_prefix (s : string) (l1 l2 : list (rune * string)) :
  range s = l1 ++ l2 -> range (strings.concat_bytes l1) = l1.
Proof.
  revert s. induction l1 as [|seg l1 IH]; intros s Hs; [reflexivity |].
  destruct s as [|c s]; [discriminate |].
  pose proof (range_cons c s) as Hc. cbv zeta in Hc. rewrite Hc in Hs.
  pose proof (DecodeRuneInString_width c s) as Hw.
  pose proof (DecodeRuneInString_width_le (String c s)) as Hle.
  remember (DecodeRuneInString (String c s)) as d eqn:Hd.
  remember (slice_to (String c s) (snd d)) as a eqn:Ha.
  inversion Hs as [[Hseg Hrest]]. clear Hs Hc.
  specialize (IH _ Hrest).
  assert (Hla : String.length a = snd d).
  { rewrite Ha, length_slice_to. lia. }
  remember (a +:+ strings.concat_bytes l1) as t eqn:Ht.
  assert (Hsplit : String c s = t +:+ strings.concat_bytes l2).
  { rewrite Ht, append_assoc, <- concat_bytes_app, <- Hrest, concat_bytes_range.
    rewrite Ha. symmetry. apply slice_to_from. }
  assert (Hlt : (snd d <= String.length t)%nat).
  { rewrite Ht, length_append. lia. }
  assert (Hdt : DecodeRuneInString t = d).
  { transitivity (DecodeRuneInString (slice_to (String c s) (String.length t))).
    - f_equal. rewrite Hsplit. symmetry. apply slice_to_append.
    - rewrite Hd. apply DecodeRuneInString_slice_to. rewrite <- Hd. exact Hlt. }
  change (strings.concat_bytes ((fst d, a) :: l1))
    with (a +:+ strings.concat_bytes l1).
  rewrite <- Ht, range_nonempty.
  - rewrite Hdt. f_equal.
    + f_equal. rewrite Ht, <- Hla. apply slice_to_append.
    + rewrite Ht, <- Hla, slice_from_append. exact IH.
  - intros Et. rewrite Et in Hlt. simpl in Hlt. lia.
Qed.

Lemma range_infix (s : string) (pre mid post : list (rune * string)) :
  range s = pre ++ mid ++ post -> range (strings.concat_bytes mid) = mid.
Proof.
  intros Hs. apply range_suffix in Hs. by apply range_prefix in Hs.
Qed.

Lemma drop_while_head {A} (f : A -> bool) (l : list A) :
  (forall x, head l = Some x -> f x = false) -> strings.drop_while f l = l.
Proof.
  destruct l as [|x l]; [reflexivity |]. intros Hh. simpl.
  by rewrite (Hh x eq_refl).
Qed.

Lemma drop_while_all {A} (f : A -> bool) (l : list A) :
  Forall (fun x => f x = true) l -> strings.drop_while f l = [].
Proof.
  induction 1 as [|x l Hx _ IH]; [reflexivity |]. simpl. by rewrite Hx.
Qed.

(** A string whose first and last runes do not satisfy [f] is left alone. *)
Lemma TrimFunc_fixed (t : string) (f : rune -> bool) :
  (forall c, head (range t) = Some c -> f (fst c) = false) ->
  (forall c, last (range t) = Some c -> f (fst c) = false) ->
  strings.TrimFunc t f = t.
Proof.
  intros Hh Hl.
  unfold strings.TrimFunc, strings.TrimLeftFunc, strings.TrimRightFunc.
  rewrite (drop_while_head _ (range t)) by exact Hh.
  rewrite concat_bytes_range.
  rewrite (drop_while_head _ (rev (range t))).
  - rewrite rev_involutive. apply concat_bytes_range.
  - intros c Hc. apply Hl.
    rewrite <- (rev_involutive (range t)), last_rev. exact Hc.
Qed.

(** Trimming twice is trimming once. *)
Lemma TrimSpace_idempotent (s : string) :
  strings.TrimSpace (strings.TrimSpace s) = strings.TrimSpace s.
Proof.
  destruct (TrimSpace_runes s)
    as (pre & mid & post & Hs & _ & _ & Hh & Hl & Hmid & _).
  rewrite Hmid. apply TrimFunc_fixed; rewrite (range_infix s pre mid post Hs);
    assumption.
Qed.

(** What a string contains after trimming it contained before. *)
Lemma Contains_TrimSpace (s substr : string) :
  strings.Contains (strings.TrimSpace s) substr = true ->
  strings.Contains s substr = true.
Proof.
  destruct (TrimSpace_runes s)
    as (pre & mid & post & _ & _ & _ & _ & _ & _ & Hs).
  rewrite !Contains_iff. intros (a & b & Hab).
  exists (strings.concat_bytes pre +:+ a), (b +:+ strings.concat_bytes post).
  rewrite Hs at 1. rewrite Hab. by rewrite !append_assoc.
Qed.

(** The runes of an ASCII string are its bytes. *)
Lemma range_ascii (s : string) :
  strings.isASCII s = true ->
  range s = map (fun c => (byte_val c, String c "")) (list_ascii_of_string s).
Proof.
  induction s as [|c s IH]; [reflexivity |].
  unfold strings.isASCII. rewrite all_bytes_cons, andb_true_iff.
  intros [Hc Hs]. rewrite range_cons. cbv zeta.
  unfold DecodeRuneInString. rewrite Hc. cbn [fst snd slice_to slice_from].
  destruct s; simpl; f_equal; by apply IH.
Qed.

(** A string of ASCII white space only trims to the empty string. *)
Lemma TrimSpace_blank (s : string) :
  all_bytes ascii_space s = true -> strings.TrimSpace s = "".
Proof.
  intros Hs.
  assert (Hascii : strings.isASCII s = true).
  { revert Hs. unfold strings.isASCII. induction s as [|c s IH]; [reflexivity |].
    rewrite !all_bytes_cons, !andb_true_iff. intros [Hc Hs].
    split; [| by apply IH].
    unfold ascii_space, in_range in Hc. unfold RuneSelf. lia. }
  assert (Hall : Forall (fun c : rune * string => unicode.IsSpace (fst c) = true)
                        (range s)).
  { rewrite range_ascii by exact Hascii. clear Hascii.
    induction s as [|c s IH]; [constructor |].
    rewrite all_bytes_cons, andb_true_iff in Hs. destruct Hs as [Hc Hs].
    simpl. constructor; [| by apply IH]. simpl.
    unfold ascii_space in Hc. unfold unicode.IsSpace.
    pose proof (N_ascii_bounded c). unfold byte_val in *.
    replace ((0 <=? Z.of_N (N_of_ascii c)) && (Z.of_N (N_of_ascii c) <=? 255))
      with true by (symmetry; apply andb_true_iff; lia).
    apply orb_true_iff in Hc as [Hc | Hc]; rewrite Hc; simpl;
      rewrite ?orb_true_r; reflexivity. }
  unfold strings.TrimSpace, strings.TrimFunc, strings.TrimLeftFunc.
  rewrite drop_while_all by exact Hall. reflexivity.
Qed.

End trim_facts.

(** ** More about sending *)
Section more_dispatch.
Context `{Platform}.
Import model service views.

(** X1: when the configured URL is not empty but does not parse,
    SendTestWebhook returns the error "failed to create webhook request: ..."
    wrapping the error of the parser, and no HTTP exchange takes place: the
    world is unchanged. *)
Theorem SendTestWebhook_unparsable_url s ctx w err :
  model.Value (WebhookUrl (GetDbConfig (appConfigService s))) <> "" ->
  url_Parse_error
    (model.Value (WebhookUrl (GetDbConfig (appConfigService s)))) = Some err ->
  SendTestWebhook s ctx w
  = (Some (wrapError ("failed to create webhook request: " +:+ Error err) err),
     w).
Proof.
  intros Hurl Hp. rewrite SendTestWebhook_run by exact Hurl.
  rewrite sendPayload_run, Hp. reflexivity.
Qed.

(** X2: when the configured URL parses and the client reports a transport
    error (connection refused, time-out, cancelled context), SendTestWebhook
    returns the error "failed to send webhook request: ..." wrapping it; its
    only effect is the one exchange that failed. *)
Theorem SendTestWebhook_transport_error s ctx w err :
  let url := model.Value (WebhookUrl (GetDbConfig (appConfigService s))) in
  let req := webhook_request ctx url (testPayload (clock w)) in
  url <> "" ->
  url_Parse_error url = None ->
  http.RoundTrip (httpClient s) req = inr err ->
  SendTestWebhook s ctx w
  = (Some (wrapError ("failed to send webhook request: " +:+ Error err) err),
     with_call w req (inr err)).
Proof.
  intros url req Hurl Hp Hr. rewrite SendTestWebhook_run by exact Hurl.
  fold url. rewrite sendPayload_run, Hp. cbv zeta. fold req. rewrite Hr.
  reflexivity.
Qed.

(** X3: sendPayload leaves the clock and the log alone and performs at most
    one HTTP exchange; the request of that exchange is a POST to the given
    URL, in the given context, whose only header is Content-Type:
    application/json and whose body is the final payload marshalled. *)
Theorem sendPayload_effects s ctx url payload w :
  clock (sendPayload s ctx url payload w).2 = clock w
  /\ slog_records (sendPayload s ctx url payload w).2 = slog_records w
  /\ (http_calls (sendPayload s ctx url payload w).2 = http_calls w
      \/ exists r,
           http_calls (sendPayload s ctx url payload w).2
           = http_calls w
             ++ [({| http.Ctx := ctx;
                     http.Method := "POST";
                     http.URL := url;
                     http.Header := [("Content-Type", "application/json")];
                     http.Body :=
                       marshal_webhookPayload (finalPayload url payload) |},
                  r)]).
Proof.
  rewrite sendPayload_run.
  destruct (url_Parse_error url) as [err|]; simpl.
  - repeat split. by left.
  - repeat split. right. eexists. reflexivity.
Qed.

(** X4: sendPayload returns nil exactly when the URL parses and the
    destination answers the request with a status from 200 to 299. *)
Theorem sendPayload_success_iff s ctx url payload w :
  (sendPayload s ctx url payload w).1 = None
  <-> url_Parse_error url = None
      /\ exists resp,
           http.RoundTrip (httpClient s) (webhook_request ctx url payload)
           = inl resp
           /\ 200 <= http.StatusCode resp <= 299.
Proof.
  rewrite sendPayload_run.
  destruct (url_Parse_error url) as [err|]; simpl.
  - split; [discriminate | intros [Hp _]; discriminate].
  - destruct (http.RoundTrip _ _) as [resp|err]; simpl.
    + destruct (Z.leb_spec 200 (http.StatusCode resp)),
               (Z.leb_spec (http.StatusCode resp) 299); simpl; split;
        try discriminate; try reflexivity.
      * intros _. split; [reflexivity |]. exists resp. split; [reflexivity | lia].
      * intros [_ (r & [= <-] & Hr)]. lia.
      * intros [_ (r & [= <-] & Hr)]. lia.
      * intros [_ (r & [= <-] & Hr)]. lia.
    + split; [discriminate |]. intros [_ (r & Hr & _)]. discriminate.
Qed.

(** X5: for a payload without attachments the destination style changes the
    key under which the embeds are written and nothing else: the values of
    the marshalled object are the same for any two URLs. *)
Theorem destination_changes_key_only url url' payload :
  slice_len (Attachments payload) = 0%nat ->
  json_values (marshal_webhookPayload (finalPayload url payload))
  = json_values (marshal_webhookPayload (finalPayload url' payload)).
Proof.
  intros Hatt. unfold finalPayload, marshal_webhookPayload, omitempty.
  destruct (strings.Contains url "hooks.slack.com"),
           (strings.Contains url' "hooks.slack.com"); simpl;
    rewrite ?Hatt; simpl;
    destruct (String.eqb (Content payload) ""),
             (slice_len (Embeds payload) =? 0)%nat; reflexivity.
Qed.

(** X6: when the URL is configured and the event passes the filter,
    SendEvent writes one log record "Failed to send webhook", with the error
    and the event kind, exactly when the delivery fails: the URL does not
    parse, the transport fails, or the status is outside 200..299.  A
    delivery that succeeds logs nothing. *)
Theorem SendEvent_log s ctx auditLog w :
  model.Value (WebhookUrl (GetDbConfig (appConfigService s))) <> "" ->
  isEventAllowed s (Event auditLog) = true ->
  let url := model.Value (WebhookUrl (GetDbConfig (appConfigService s))) in
  let req := webhook_request ctx url (eventPayload auditLog) in
  slog_records (SendEvent s ctx auditLog w).2
  = slog_records w
    ++ match url_Parse_error url with
       | Some err =>
         [failure_record
            (wrapError ("failed to create webhook request: " +:+ Error err) err)
            (Event auditLog)]
       | None =>
         match http.RoundTrip (httpClient s) req with
         | inr err =>
           [failure_record
              (wrapError ("failed to send webhook request: " +:+ Error err) err)
              (Event auditLog)]
         | inl resp =>
           if (200 <=? http.StatusCode resp) && (http.StatusCode resp <=? 299)
           then []
           else [failure_record
                   (errorString ("webhook returned non-success status: "
                                 +:+ fmt.itoa (http.StatusCode resp)))
                   (Event auditLog)]
         end
       end.
Proof.
  intros Hurl Hok url req. rewrite SendEvent_run by assumption.
  rewrite sendPayload_run. fold url. fold req.
  destruct (url_Parse_error url) as [err|]; [reflexivity |].
  cbv zeta. destruct (http.RoundTrip _ _) as [resp|err]; [| reflexivity].
  destruct ((200 <=? _) && _); simpl; [| reflexivity].
  by rewrite app_nil_r.
Qed.

Lemma SendEvent_skip s ctx auditLog w :
  model.Value (WebhookUrl (GetDbConfig (appConfigService s))) = ""
  \/ isEventAllowed s (Event auditLog) = false ->
  SendEvent s ctx auditLog w = (tt, w).
Proof.
  unfold SendEvent. intros [Hurl | Hrej].
  - rewrite Hurl. reflexivity.
  - rewrite Hrej. simpl. destruct (String.eqb _ ""); reflexivity.
Qed.

(** X7: SendEvent performs one HTTP exchange when the URL is configured, the
    event passes the filter and the URL parses, and none otherwise; it never
    performs more than one. *)
Theorem SendEvent_http_calls s ctx auditLog w :
  let url := model.Value (WebhookUrl (GetDbConfig (appConfigService s))) in
  let req := webhook_request ctx url (eventPayload auditLog) in
  http_calls (SendEvent s ctx auditLog w).2
  = http_calls w
    ++ (if negb (String.eqb url "") && isEventAllowed s (Event auditLog)
           && match url_Parse_error url with None => true | Some _ => false end
        then [(req, http.RoundTrip (httpClient s) req)]
        else []).
Proof.
  intros url req.
  destruct (String.eqb_spec url "") as [Hurl|Hurl].
  - rewrite (SendEvent_skip s ctx auditLog w (or_introl Hurl)).
    simpl. by rewrite app_nil_r.
  - destruct (isEventAllowed s (Event auditLog)) eqn:Hok.
    + rewrite SendEvent_run by assumption. rewrite sendPayload_run.
      fold url. fold req.
      destruct (url_Parse_error url) as [err|]; simpl;
        [by rewrite app_nil_r |].
      destruct (http.RoundTrip _ _) as [resp|err]; [| reflexivity].
      destruct ((200 <=? _) && _); reflexivity.
    + rewrite (SendEvent_skip s ctx auditLog w (or_intror Hok)).
      simpl. by rewrite app_nil_r.
Qed.

End more_dispatch.

(** ** More about the payloads *)
Section more_payload.
Context `{Platform}.
Import model service views.

(** What [json.Marshal] changes in a string is its invalid bytes only. *)
Lemma coerce_utf8_valid (s : string) :
  Forall (fun c : utf8.rune * string =>
            (fst c =? utf8.RuneError) && (String.length (snd c) =? 1)%nat
            = false) (utf8.range s) ->
  coerce_utf8 s = s.
Proof.
  intros Hvalid. rewrite <- (concat_bytes_range s) at 2.
  unfold coerce_utf8, strings.concat_bytes.
  induction Hvalid as [|c l Hc _ IH]; [reflexivity |].
  simpl. by rewrite Hc, IH.
Qed.

Lemma coerce_utf8_ascii (s : string) :
  strings.isASCII s = true -> coerce_utf8 s = s.
Proof.
  intros Hascii. apply coerce_utf8_valid.
  rewrite range_ascii by exact Hascii.
  revert Hascii. unfold strings.isASCII.
  induction s as [|c s IH]; [constructor |].
  rewrite all_bytes_cons, andb_true_iff. intros [Hc Hs].
  simpl. constructor; [| by apply IH]. simpl.
  apply andb_false_iff. left. apply Z.eqb_neq.
  unfold utf8.RuneError, utf8.RuneSelf in *. lia.
Qed.

Example coerce_utf8_ex :
  coerce_utf8 "alice" = "alice"
  /\ coerce_utf8 (bytes [195; 169]) = bytes [195; 169]
  /\ coerce_utf8 (bytes [97; 255; 98]) = bytes [97; 239; 191; 189; 98]
  /\ coerce_utf8 (bytes [239; 191; 189]) = bytes [239; 191; 189]
  /\ coerce_utf8 (bytes [226; 130]) = bytes [239; 191; 189; 239; 191; 189].
Proof. repeat split; vm_compute; reflexivity. Qed.

(** X8: the request SendEvent sends for an event that goes through, as it
    appears on the wire: a POST to the configured URL whose body is an
    object with the single key "attachments" (Slack) or "embeds", holding one
    embed with the title of the event kind, the colour 5814783, the four
    fixed fields followed by one field per extra attribute, and the creation
    time of the event.  Every string of the body is written as json.Marshal
    writes it: with U+FFFD in place of each byte that is not valid UTF-8. *)
Theorem SendEvent_request_sent s ctx auditLog w :
  model.Value (WebhookUrl (GetDbConfig (appConfigService s))) <> "" ->
  isEventAllowed s (Event auditLog) = true ->
  url_Parse_error
    (model.Value (WebhookUrl (GetDbConfig (appConfigService s)))) = None ->
  let url := model.Value (WebhookUrl (GetDbConfig (appConfigService s))) in
  exists r,
    http_calls (SendEvent s ctx auditLog w).2
    = http_calls w
      ++ [({| http.Ctx := ctx;
              http.Method := "POST";
              http.URL := url;
              http.Header := [("Content-Type", "application/json")];
              http.Body :=
                JObject
                  [(if strings.Contains url "hooks.slack.com"
                    then "attachments" else "embeds",
                    JArray
                      [JObject
                         [("title",
                           JString
                             (coerce_utf8 (formatEventTitle (Event auditLog))));
                          ("color", JNumber 5814783);
                          ("fields",
                           JArray
                             (map marshal_webhookEmbedField
                                ([{| Name := "User";
                                     Value := valueOrDash (Username auditLog);
                                     Inline := true |};
                                  {| Name := "IP Address";
                                     Value :=
                                       valueOrDash
                                         (default "" (IpAddress auditLog));
                                     Inline := true |};
                                  {| Name := "Location";
                                     Value :=
                                       valueOrDash
                                         (formatLocation (Country auditLog)
                                                         (City auditLog));
                                     Inline := true |};
                                  {| Name := "Device";
                                     Value := valueOrDash (UserAgent auditLog);
                                     Inline := true |}]
                                 ++ map spec.extra_field
                                      (map_range (Data auditLog)))));
                          ("timestamp",
                           JString
                             (coerce_utf8
                                (Format_UTC_RFC3339 (CreatedAt auditLog))))]])]
           |}, r)].
Proof.
  intros Hurl Hok Hparse url.
  pose proof (SendEvent_request s ctx auditLog w Hurl Hok Hparse) as Hreq.
  cbv zeta in Hreq. fold url in Hreq.
  exists (http.RoundTrip (httpClient s)
            (webhook_request ctx url (eventPayload auditLog))).
  rewrite Hreq. do 3 f_equal.
  unfold webhook_request. f_equal.
  unfold eventPayload, eventPayload_init. rewrite eventPayload_loop_fields.
  unfold finalPayload.
  destruct (strings.Contains url "hooks.slack.com");
    destruct (IpAddress auditLog); reflexivity.
Qed.

(** X9: an absent IP address and an empty one give the same payload, with
    the dash as the value of the field "IP Address". *)
Theorem eventPayload_absent_ip event userAgent country city username createdAt data :
  let absent :=
    {| Event := event; IpAddress := None; UserAgent := userAgent;
       Country := country; City := city; Username := username;
       CreatedAt := createdAt; Data := data |} in
  let empty :=
    {| Event := event; IpAddress := Some ""; UserAgent := userAgent;
       Country := country; City := city; Username := username;
       CreatedAt := createdAt; Data := data |} in
  eventPayload absent = eventPayload empty
  /\ exists e fs,
       Embeds (eventPayload absent) = Some [e]
       /\ Fields e = Some fs
       /\ fs !! 1%nat
          = Some {| Name := "IP Address"; Value := "-"; Inline := true |}.
Proof.
  intros absent empty. split; [reflexivity |].
  unfold eventPayload, eventPayload_init. rewrite eventPayload_loop_fields.
  eexists _, _. repeat split.
Qed.

Lemma map_range_empty : map_range (∅ : gmap string string) = [].
Proof.
  apply Permutation_nil_r. rewrite (map_range_perm ∅).
  by rewrite map_to_list_empty.
Qed.

(** X10: an event without extra attributes gives a payload with exactly the
    four fixed fields User, IP Address, Location and Device, in this
    order. *)
Theorem eventPayload_no_data (auditLog : AuditLog) :
  Data auditLog = ∅ ->
  exists e,
    Embeds (eventPayload auditLog) = Some [e]
    /\ Fields e
       = Some [{| Name := "User"; Value := valueOrDash (Username auditLog);
                  Inline := true |};
               {| Name := "IP Address";
                  Value := valueOrDash (default "" (IpAddress auditLog));
                  Inline := true |};
               {| Name := "Location";
                  Value := valueOrDash (formatLocation (Country auditLog)
                                                       (City auditLog));
                  Inline := true |};
               {| Name := "Device"; Value := valueOrDash (UserAgent auditLog);
                  Inline := true |}].
Proof.
  intros Hdata. unfold eventPayload, eventPayload_init.
  rewrite eventPayload_loop_fields, Hdata, map_range_empty.
  eexists. split; [reflexivity |]. simpl.
  destruct (IpAddress auditLog); reflexivity.
Qed.

(** X11: SendTestWebhook never writes a log record and leaves the clock
    alone; it performs at most one HTTP exchange, whose request carries the
    test payload stamped with the time of the call. *)
Theorem SendTestWebhook_effects s ctx w :
  let url := model.Value (WebhookUrl (GetDbConfig (appConfigService s))) in
  slog_records (SendTestWebhook s ctx w).2 = slog_records w
  /\ clock (SendTestWebhook s ctx w).2 = clock w
  /\ (http_calls (SendTestWebhook s ctx w).2 = http_calls w
      \/ exists r,
           http_calls (SendTestWebhook s ctx w).2
           = http_calls w
             ++ [(webhook_request ctx url (testPayload (clock w)), r)]).
Proof.
  intros url. destruct (String.eqb_spec url "") as [Hurl|Hurl].
  - unfold SendTestWebhook. fold url. rewrite Hurl. simpl.
    repeat split. by left.
  - rewrite SendTestWebhook_run by exact Hurl. fold url.
    rewrite sendPayload_run.
    destruct (url_Parse_error url) as [err|]; simpl.
    + repeat split. by left.
    + repeat split. right. eexists. reflexivity.
Qed.

(** X20: the location text contains the country and the city it was made
    from: neither part is ever dropped. *)
Theorem formatLocation_keeps_parts (country city : string) :
  strings.Contains (formatLocation country city) country = true
  /\ strings.Contains (formatLocation country city) city = true.
Proof.
  rewrite !Contains_iff. rewrite formatLocation_cases.
  destruct country as [|c country]; [| destruct city as [|d city]].
  - split; [by exists "", city | exists "", ""; by rewrite append_nil_r].
  - split; [exists "", ""; by rewrite append_nil_r | by exists "", (String c country)].
  - split.
    + exists (String d city +:+ ", "), "".
      by rewrite append_nil_r, append_assoc.
    + by exists "", (", " +:+ String c country).
Qed.

End more_payload.

(** ** More about the event filter *)
Section more_filter.
Context `{Platform}.
Import model service views.

Lemma isEventAllowed_entries (s : WebhookService) (event : string) :
  model.Value (WebhookEvents (GetDbConfig (appConfigService s))) <> "" ->
  isEventAllowed s event = true
  <-> exists entry,
        entry ∈ strings.Split
                  (model.Value (WebhookEvents (GetDbConfig (appConfigService s))))
                  ","
        /\ strings.TrimSpace entry = event.
Proof.
  intros Hne. unfold isEventAllowed.
  destruct (String.eqb_spec
              (model.Value (WebhookEvents (GetDbConfig (appConfigService s)))) "");
    [contradiction |].
  apply isEventAllowed_loop_spec.
Qed.

Lemma Join_not_empty (l : list string) (sep : string) :
  strings.Join l sep <> "" -> l <> [].
Proof. by destruct l. Qed.

(** X12: with a filter that is the join by commas of a list of names, none
    of which contains a comma or has surrounding white space, isEventAllowed
    accepts exactly the names of the list. *)
Theorem isEventAllowed_joined (s : WebhookService) (selected : list string)
    (event : string) :
  model.Value (WebhookEvents (GetDbConfig (appConfigService s)))
  = strings.Join selected "," ->
  strings.Join selected "," <> "" ->
  Forall (fun e => strings.TrimSpace e = e /\ sep_free "," e = true) selected ->
  isEventAllowed s event = true <-> event ∈ selected.
Proof.
  intros Hfilter Hne Hsel.
  rewrite isEventAllowed_entries by (by rewrite Hfilter).
  rewrite Hfilter, Split_Join.
  - rewrite Forall_forall in Hsel. split.
    + intros (entry & Hin & <-). by rewrite (proj1 (Hsel _ Hin)).
    + intros Hin. exists event. split; [exact Hin | apply (Hsel _ Hin)].
  - by apply Join_not_empty in Hne.
  - eapply Forall_impl; [exact Hsel |]. by intros e [_ He].
Qed.

(** X13: under a filter that is not empty, isEventAllowed never accepts an
    event kind that has white space at its start or end, nor one that
    contains a comma. *)
Theorem isEventAllowed_only_trimmed (s : WebhookService) (event : string) :
  model.Value (WebhookEvents (GetDbConfig (appConfigService s))) <> "" ->
  isEventAllowed s event = true ->
  strings.TrimSpace event = event /\ strings.Contains event "," = false.
Proof.
  intros Hne Hok. apply (isEventAllowed_entries s event Hne) in Hok
    as (entry & Hin & <-).
  split; [apply TrimSpace_idempotent |].
  destruct (strings.Contains (strings.TrimSpace entry) ",") eqn:Hc;
    [| reflexivity].
  apply Contains_TrimSpace in Hc.
  pose proof (Split_sep_free
                (model.Value (WebhookEvents (GetDbConfig (appConfigService s))))
                "," "") as Hfree.
  rewrite Forall_forall in Hfree. rewrite (Hfree _ Hin) in Hc. discriminate.
Qed.

Lemma blank_piece (e : string) :
  all_bytes blank_or_comma e = true -> sep_free "," e = true ->
  all_bytes ascii_space e = true.
Proof.
  unfold sep_free. induction e as [|c e IH]; [reflexivity |].
  rewrite !all_bytes_cons, !andb_true_iff. intros [Hc He] [Hn Hf].
  split; [| by apply IH].
  unfold blank_or_comma in Hc. apply orb_true_iff in Hc as [Hc | Hc];
    [exact Hc |].
  rewrite Hc in Hn. discriminate.
Qed.

(** X14: a filter made of ASCII white space and commas only is not an empty
    filter: isEventAllowed then accepts the empty event kind and no
    other. *)
Theorem isEventAllowed_blank_filter (s : WebhookService) (event : string) :
  model.Value (WebhookEvents (GetDbConfig (appConfigService s))) <> "" ->
  all_bytes blank_or_comma
    (model.Value (WebhookEvents (GetDbConfig (appConfigService s)))) = true ->
  isEventAllowed s event = true <-> event = "".
Proof.
  intros Hne Hblank. rewrite isEventAllowed_entries by exact Hne.
  set (f := model.Value (WebhookEvents (GetDbConfig (appConfigService s)))) in *.
  assert (Hall : forall entry, entry ∈ strings.Split f "," ->
                               strings.TrimSpace entry = "").
  { intros entry Hin. apply TrimSpace_blank, blank_piece.
    - pose proof (all_bytes_genSplit_loop blank_or_comma
                    (strings.Count f ",") f "," Hblank) as Hp.
      rewrite Forall_forall in Hp. by apply Hp.
    - pose proof (Split_pieces_sep_free f ",") as Hp.
      rewrite Forall_forall in Hp. by apply Hp. }
  split.
  - intros (entry & Hin & <-). by apply Hall.
  - intros ->. destruct (strings.Split f ",") as [|e l] eqn:Hs.
    + by apply Split_nonempty in Hs.
    + exists e. split; [left | apply Hall; left].
Qed.

(** X15: appending ",extra" to a filter that is not empty keeps every event
    kind it accepted and adds the entries of [extra]: the longer filter
    accepts an event kind exactly when the shorter one does or the event
    kind is an entry of [extra]. *)
Theorem isEventAllowed_extended (s s' : WebhookService) (extra event : string) :
  model.Value (WebhookEvents (GetDbConfig (appConfigService s))) <> "" ->
  model.Value (WebhookEvents (GetDbConfig (appConfigService s')))
  = model.Value (WebhookEvents (GetDbConfig (appConfigService s)))
    +:+ "," +:+ extra ->
  isEventAllowed s' event = true
  <-> isEventAllowed s event = true \/ event ∈ spec.filter_entries extra.
Proof.
  intros Hne Hext.
  assert (Hne' : model.Value (WebhookEvents (GetDbConfig (appConfigService s')))
                 <> "").
  { rewrite Hext. intros Heq. apply (f_equal String.length) in Heq.
    rewrite !length_append in Heq. simpl in Heq. lia. }
  rewrite (isEventAllowed_entries s' event Hne'),
          (isEventAllowed_entries s event Hne), Hext, Split_app.
  unfold spec.filter_entries. rewrite list_elem_of_fmap.
  setoid_rewrite elem_of_app. split.
  - intros (entry & [Hin | Hin] & Htrim); [left | right]; by exists entry.
  - intros [(entry & Hin & Htrim) | (entry & Htrim & Hin)];
      exists entry; split; auto.
Qed.

End more_filter.

(** ** More about the title *)
Section more_title.
Context `{Platform}.
Import model service views.

Lemma length_title_scan (b : bool) (s : string) :
  String.length (title_scan b s) = String.length s.
Proof.
  revert b. induction s as [|c s IH]; intros b; [reflexivity |].
  simpl. destruct (Ascii.eqb c "_"); simpl; by rewrite IH.
Qed.

Lemma case_not_underscore (c : ascii) :
  Ascii.eqb c "_" = false ->
  Ascii.eqb (spec.ascii_upper c) "_" = false
  /\ Ascii.eqb (spec.ascii_lower c) "_" = false.
Proof.
  destruct c as [[] [] [] [] [] [] [] []]; intros Hc;
    try discriminate Hc; split; reflexivity.
Qed.

Lemma title_scan_no_underscore (b : bool) (s : string) :
  sep_free "_" (title_scan b s) = true.
Proof.
  unfold sep_free. revert b. induction s as [|c s IH]; intros b; [reflexivity |].
  simpl. destruct (Ascii.eqb c "_") eqn:Hc.
  - rewrite all_bytes_cons, IH. reflexivity.
  - destruct (case_not_underscore c Hc) as [Hu Hl].
    rewrite all_bytes_cons, IH. destruct b; [rewrite Hu | rewrite Hl];
      reflexivity.
Qed.

(** Splitting at underscores, capitalizing and joining with spaces is the
    one-pass scan. *)
Lemma Join_capitalize_scan (s : string) :
  title_scan true s
  = strings.Join (map spec.capitalize_ascii (strings.Split s "_")) " "
  /\ title_scan false s
     = match strings.Split s "_" with
       | h :: t =>
         strings.Join (spec.map_string spec.ascii_lower h
                       :: map spec.capitalize_ascii t) " "
       | [] => ""
       end.
Proof.
  induction s as [|c s [IHt IHf]]; [split; reflexivity |].
  pose proof (Split_nonempty s "_") as Hne.
  rewrite (Split_cons "_" c s). simpl title_scan.
  destruct (Ascii.eqb c "_") eqn:Hc.
  - destruct (strings.Split s "_") as [|h t] eqn:Hs; [congruence |].
    split.
    + rewrite IHt. reflexivity.
    + rewrite IHt. reflexivity.
  - destruct (strings.Split s "_") as [|h t] eqn:Hs; [congruence |].
    split.
    + rewrite IHf. simpl map. cbn [spec.capitalize_ascii].
      by rewrite Join_cons_byte.
    + rewrite IHf. cbn [spec.map_string]. by rewrite Join_cons_byte.
Qed.

(** X16: on an ASCII event kind formatEventTitle computes the one-pass scan:
    every underscore becomes a space, the first byte of every word is put in
    upper case and the other bytes in lower case.  The title has the length
    of the event kind and contains no underscore. *)
Theorem formatEventTitle_scan (event : string) :
  strings.isASCII event = true ->
  formatEventTitle event = title_scan true event
  /\ String.length (formatEventTitle event) = String.length event
  /\ strings.Contains (formatEventTitle event) "_" = false.
Proof.
  intros Hascii.
  assert (Heq : formatEventTitle event = title_scan true event).
  { rewrite formatEventTitle_ascii by exact Hascii.
    symmetry. apply Join_capitalize_scan. }
  rewrite Heq. split; [reflexivity |]. split; [apply length_title_scan |].
  rewrite Contains_byte, title_scan_no_underscore. reflexivity.
Qed.

End more_title.

(** ** The settings form and the filter *)
Section form.
Context `{Platform}.
Import model service views.

Lemma Join_starts (e : string) (r : list string) (sep : string) :
  e <> "" -> strings.Join (e :: r) sep <> "".
Proof.
  destruct e as [|c e]; [congruence |]. intros _.
  rewrite Join_cons_byte. discriminate.
Qed.

(** X17: the selection the form shows for a saved selection is that
    selection: for names that are not empty and contain no comma, the value
    stored by onSelectEvents is read back by the form as the same list. *)
Theorem selection_round_trip (selected : list string) :
  Forall (fun e => e <> "" /\ sep_free "," e = true) selected ->
  frontend.initialSelectedEvents (Some (frontend.onSelectEvents selected).2)
  = selected.
Proof.
  intros Hsel. unfold frontend.initialSelectedEvents, frontend.onSelectEvents,
    frontend.join, frontend.split. simpl snd.
  destruct selected as [|e r]; [reflexivity |].
  pose proof (Forall_inv Hsel) as [He _].
  destruct (String.eqb_spec (strings.Join (e :: r) ",") "") as [Heq|_].
  - by apply Join_starts in Heq.
  - apply Split_Join; [discriminate |].
    eapply Forall_impl; [exact Hsel |]. by intros x [_ Hx].
Qed.

(** X18: opening the form on a stored filter and storing the selection it
    shows gives the stored filter back, whatever the filter is. *)
Theorem filter_round_trip (events : string) :
  (frontend.onSelectEvents
     (frontend.initialSelectedEvents (Some events))).2 = events.
Proof.
  unfold frontend.initialSelectedEvents, frontend.onSelectEvents,
    frontend.join, frontend.split. simpl snd.
  destruct (String.eqb_spec events "") as [->|_]; [reflexivity |].
  apply Join_Split.
Qed.

Lemma auditLogEventsList_plain :
  Forall (fun e => e <> "" /\ strings.TrimSpace e = e /\ sep_free "," e = true)
         frontend.auditLogEventsList.
Proof. repeat constructor; try discriminate; vm_compute; reflexivity. Qed.

(** X19: what a selection made in the form means to the service: with the
    filter stored by onSelectEvents for a selection of the event kinds the
    form offers, isEventAllowed accepts every event kind when nothing is
    selected, and exactly the selected kinds otherwise. *)
Theorem selection_filters (s : WebhookService) (selected : list string)
    (event : string) :
  Forall (fun e => e ∈ frontend.auditLogEventsList) selected ->
  model.Value (WebhookEvents (GetDbConfig (appConfigService s)))
  = (frontend.onSelectEvents selected).2 ->
  isEventAllowed s event = true <-> selected = [] \/ event ∈ selected.
Proof.
  intros Hsel Hfilter.
  unfold frontend.onSelectEvents, frontend.join in Hfilter. simpl in Hfilter.
  assert (Hplain : Forall (fun e => e <> "" /\ strings.TrimSpace e = e
                                    /\ sep_free "," e = true) selected).
  { pose proof auditLogEventsList_plain as Hlist.
    rewrite Forall_forall in Hlist, Hsel. apply Forall_forall.
    intros e He. apply Hlist, Hsel, He. }
  destruct selected as [|e r].
  - unfold isEventAllowed. rewrite Hfilter. simpl. split; [by left | reflexivity].
  - pose proof (Forall_inv Hplain) as [He _].
    assert (Hne : strings.Join (e :: r) "," <> "") by (by apply Join_starts).
    rewrite isEventAllowed_entries by (by rewrite Hfilter).
    rewrite Hfilter, Split_Join;
      [| discriminate
       | eapply Forall_impl; [exact Hplain |]; by intros x (_ & _ & Hx)].
    rewrite Forall_forall in Hplain. split.
    + intros (entry & Hin & <-). right.
      by rewrite (proj1 (proj2 (Hplain _ Hin))).
    + intros [Hnil | Hin]; [discriminate |].
      exists event. split; [exact Hin | apply (Hplain _ Hin)].
Qed.

End form.

(** ** Runs of the further properties on the reference platform *)
Section more_runs.
Import model service views.
#[local] Existing Instance reference.platform.

Lemma SendTestWebhook_unparsable_url_witness :
  let s := samples.service_with more_samples.bad_url "" 200 in
  let err := errorString "net/url: invalid control character in URL" in
  (model.Value (WebhookUrl (GetDbConfig (appConfigService s))) <> ""
   /\ url_Parse_error
        (model.Value (WebhookUrl (GetDbConfig (appConfigService s))))
      = Some err)
  /\ SendTestWebhook s tt samples.world0
     = (Some (wrapError
                "failed to create webhook request: net/url: invalid control character in URL"
                err),
        samples.world0).
Proof.
  intros s err.
  assert (Hurl : model.Value (WebhookUrl (GetDbConfig (appConfigService s)))
                 <> "") by discriminate.
  split; [split; [exact Hurl | reflexivity] |].
  exact (SendTestWebhook_unparsable_url s tt samples.world0 err Hurl eq_refl).
Defined.

Lemma SendTestWebhook_transport_error_witness :
  let s := more_samples.unreachable samples.discord_url "" in
  let url := model.Value (WebhookUrl (GetDbConfig (appConfigService s))) in
  let req := webhook_request tt url (testPayload (clock samples.world0)) in
  let err :=
    errorString "dial tcp 203.0.113.9:443: connect: connection refused" in
  (url <> "" /\ url_Parse_error url = None
   /\ http.RoundTrip (httpClient s) req = inr err)
  /\ (SendTestWebhook s tt samples.world0).1
     = Some (wrapError
               "failed to send webhook request: dial tcp 203.0.113.9:443: connect: connection refused"
               err).
Proof.
  intros s url req err.
  assert (Hurl : url <> "") by discriminate.
  split; [split; [exact Hurl | split; reflexivity] |].
  exact (f_equal fst
           (SendTestWebhook_transport_error s tt samples.world0 err Hurl
              eq_refl eq_refl)).
Defined.

Lemma destination_changes_key_only_witness :
  slice_len (Attachments samples.test_payload) = 0%nat
  /\ json_values (marshal_webhookPayload
                    (finalPayload samples.slack_url samples.test_payload))
     = json_values (marshal_webhookPayload
                      (finalPayload samples.discord_url samples.test_payload)).
Proof.
  split; [reflexivity |].
  exact (destination_changes_key_only samples.slack_url samples.discord_url
           samples.test_payload eq_refl).
Defined.

Lemma SendEvent_log_witness :
  let s := samples.service_with samples.discord_url "" 503 in
  (model.Value (WebhookUrl (GetDbConfig (appConfigService s))) <> ""
   /\ isEventAllowed s (Event samples.sign_in) = true)
  /\ slog_records (SendEvent s tt samples.sign_in samples.world0).2
     = [failure_record
          (errorString "webhook returned non-success status: 503") "SIGN_IN"].
Proof.
  intros s.
  assert (Hurl : model.Value (WebhookUrl (GetDbConfig (appConfigService s)))
                 <> "") by discriminate.
  split; [split; [exact Hurl | reflexivity] |].
  exact (SendEvent_log s tt samples.sign_in samples.world0 Hurl eq_refl).
Defined.

Lemma SendEvent_request_sent_witness :
  let s := samples.service_with samples.slack_url "" 200 in
  (model.Value (WebhookUrl (GetDbConfig (appConfigService s))) <> ""
   /\ isEventAllowed s (Event more_samples.passkey_added) = true
   /\ url_Parse_error
        (model.Value (WebhookUrl (GetDbConfig (appConfigService s)))) = None)
  /\ exists req r,
       http_calls (SendEvent s tt more_samples.passkey_added samples.world0).2
       = [(req, r)]
       /\ json_keys (http.Body req) = ["attachments"].
Proof.
  intros s.
  assert (Hurl : model.Value (WebhookUrl (GetDbConfig (appConfigService s)))
                 <> "") by discriminate.
  split; [split; [exact Hurl | split; reflexivity] |].
  destruct (SendEvent_request_sent s tt more_samples.passkey_added
              samples.world0 Hurl eq_refl eq_refl) as [r Hr].
  eexists _, r. split; [exact Hr | reflexivity].
Defined.

(** The body sent for a user name that is not UTF-8: the invalid byte is
    written as U+FFFD. *)
Example SendEvent_request_sent_ex :
  exists req r,
    http_calls (SendEvent (samples.service_with samples.discord_url "" 204) tt
                  more_samples.garbled_user samples.world0).2
    = [(req, r)]
    /\ http.Body req
       = JObject
           [("embeds",
             JArray
               [JObject
                  [("title", JString "Sign In");
                   ("color", JNumber 5814783);
                   ("fields",
                    JArray
                      [JObject [("name", JString "User");
                                ("value", JString (bytes [97; 239; 191; 189; 98]));
                                ("inline", JBool true)];
                       JObject [("name", JString "IP Address");
                                ("value", JString "-");
                                ("inline", JBool true)];
                       JObject [("name", JString "Location");
                                ("value", JString "Oslo");
                                ("inline", JBool true)];
                       JObject [("name", JString "Device");
                                ("value", JString "curl/8.5");
                                ("inline", JBool true)]]);
                   ("timestamp", JString "1970-01-01T00:00:00Z")]])].
Proof. eexists _, _. split; vm_compute; reflexivity. Qed.

Lemma eventPayload_no_data_witness :
  Data more_samples.passkey_added = ∅
  /\ exists e,
       Embeds (eventPayload more_samples.passkey_added) = Some [e]
       /\ map Value (default [] (Fields e))
          = ["bob"; "198.51.100.4"; "Berlin, DE"; "Firefox"].
Proof.
  split; [reflexivity |].
  destruct (eventPayload_no_data more_samples.passkey_added eq_refl)
    as (e & He & Hf).
  exists e. split; [exact He |]. rewrite Hf. reflexivity.
Defined.

Lemma isEventAllowed_joined_witness :
  let selected := ["SIGN_IN"; "PASSKEY_ADDED"] in
  let s := samples.service_with samples.discord_url "SIGN_IN,PASSKEY_ADDED" 200 in
  (model.Value (WebhookEvents (GetDbConfig (appConfigService s)))
   = strings.Join selected ","
   /\ strings.Join selected "," <> ""
   /\ Forall (fun e => strings.TrimSpace e = e /\ sep_free "," e = true)
             selected)
  /\ (isEventAllowed s "PASSKEY_ADDED" = true <-> "PASSKEY_ADDED" ∈ selected).
Proof.
  intros selected s.
  assert (Hne : strings.Join selected "," <> "") by discriminate.
  assert (Hsel : Forall (fun e => strings.TrimSpace e = e
                                  /\ sep_free "," e = true) selected)
    by (repeat constructor; vm_compute; reflexivity).
  split; [split; [reflexivity | split; [exact Hne | exact Hsel]] |].
  exact (isEventAllowed_joined s selected "PASSKEY_ADDED" eq_refl Hne Hsel).
Defined.

Lemma isEventAllowed_only_trimmed_witness :
  let s := samples.service_with samples.discord_url
             " SIGN_IN , TOKEN_SIGN_IN" 200 in
  (model.Value (WebhookEvents (GetDbConfig (appConfigService s))) <> ""
   /\ isEventAllowed s "SIGN_IN" = true)
  /\ strings.TrimSpace "SIGN_IN" = "SIGN_IN"
  /\ strings.Contains "SIGN_IN" "," = false.
Proof.
  intros s.
  assert (Hne : model.Value (WebhookEvents (GetDbConfig (appConfigService s)))
                <> "") by discriminate.
  assert (Hok : isEventAllowed s "SIGN_IN" = true) by (vm_compute; reflexivity).
  split; [split; [exact Hne | exact Hok] |].
  exact (isEventAllowed_only_trimmed s "SIGN_IN" Hne Hok).
Defined.

Lemma isEventAllowed_blank_filter_witness :
  let s := samples.service_with samples.discord_url " , " 200 in
  (model.Value (WebhookEvents (GetDbConfig (appConfigService s))) <> ""
   /\ all_bytes blank_or_comma
        (model.Value (WebhookEvents (GetDbConfig (appConfigService s)))) = true)
  /\ (isEventAllowed s "SIGN_IN" = true <-> "SIGN_IN" = "").
Proof.
  intros s.
  assert (Hne : model.Value (WebhookEvents (GetDbConfig (appConfigService s)))
                <> "") by discriminate.
  split; [split; [exact Hne | reflexivity] |].
  exact (isEventAllowed_blank_filter s "SIGN_IN" Hne eq_refl).
Defined.

Lemma isEventAllowed_extended_witness :
  let s := samples.service_with samples.discord_url "SIGN_IN" 200 in
  let s' := samples.service_with samples.discord_url "SIGN_IN,PASSKEY_ADDED" 200 in
  (model.Value (WebhookEvents (GetDbConfig (appConfigService s))) <> ""
   /\ model.Value (WebhookEvents (GetDbConfig (appConfigService s')))
      = model.Value (WebhookEvents (GetDbConfig (appConfigService s)))
        +:+ "," +:+ "PASSKEY_ADDED")
  /\ (isEventAllowed s' "PASSKEY_ADDED" = true
      <-> isEventAllowed s "PASSKEY_ADDED" = true
          \/ "PASSKEY_ADDED" ∈ spec.filter_entries "PASSKEY_ADDED").
Proof.
  intros s s'.
  assert (Hne : model.Value (WebhookEvents (GetDbConfig (appConfigService s)))
                <> "") by discriminate.
  split; [split; [exact Hne | reflexivity] |].
  exact (isEventAllowed_extended s s' "PASSKEY_ADDED" "PASSKEY_ADDED" Hne
           eq_refl).
Defined.

Lemma formatEventTitle_scan_witness :
  strings.isASCII "NEW_DEVICE_CODE_AUTHORIZATION" = true
  /\ formatEventTitle "NEW_DEVICE_CODE_AUTHORIZATION"
     = title_scan true "NEW_DEVICE_CODE_AUTHORIZATION"
  /\ String.length (formatEventTitle "NEW_DEVICE_CODE_AUTHORIZATION") = 29%nat.
Proof.
  split; [reflexivity |].
  destruct (formatEventTitle_scan "NEW_DEVICE_CODE_AUTHORIZATION" eq_refl)
    as (Hscan & Hlen & _).
  split; [exact Hscan | exact Hlen].
Defined.

Lemma selection_round_trip_witness :
  let selected := ["SIGN_IN"; "PASSKEY_REMOVED"] in
  Forall (fun e => e <> "" /\ sep_free "," e = true) selected
  /\ frontend.initialSelectedEvents (Some (frontend.onSelectEvents selected).2)
     = selected.
Proof.
  intros selected.
  assert (Hsel : Forall (fun e => e <> "" /\ sep_free "," e = true) selected)
    by (repeat constructor; discriminate).
  split; [exact Hsel |].
  exact (selection_round_trip selected Hsel).
Defined.

Lemma selection_filters_witness :
  let selected := ["TOKEN_SIGN_IN"; "ACCOUNT_CREATED"] in
  let s := samples.service_with samples.discord_url
             "TOKEN_SIGN_IN,ACCOUNT_CREATED" 200 in
  (Forall (fun e => e ∈ frontend.auditLogEventsList) selected
   /\ model.Value (WebhookEvents (GetDbConfig (appConfigService s)))
      = (frontend.onSelectEvents selected).2)
  /\ (isEventAllowed s "SIGN_IN" = true
      <-> selected = [] \/ "SIGN_IN" ∈ selected).
Proof.
  intros selected s.
  assert (Hsel : Forall (fun e => e ∈ frontend.auditLogEventsList) selected).
  { repeat constructor. }
  split; [split; [exact Hsel | reflexivity] |].
  exact (selection_filters s selected "SIGN_IN" Hsel eq_refl).
Defined.

End more_runs.
